(** * fakebook-generator: a shallow embedding of [main.py]

    The program merges the PDF files of a directory into one output PDF,
    prefixed by a generated cover page and a generated table of contents,
    with one bookmark per section.

    Conventions of the embedding.
    - Python [str] values are Rocq [string]s (byte strings).  The only
      patterns the program searches for, [".pdf"] and ["_"], are ASCII, and
      UTF-8 is self-synchronising, so replacing on bytes and replacing on
      code points agree.
    - Lengths on the page are integers counting thousandths of a point
      (1 inch = 72000).  Every constant of the source ([0.9 * inch],
      [0.32 * inch], ...) is a whole number of such units.
    - The file system, the image decoder, the PDF reader and the font
      metrics are the [World] the program runs in; what the program prints,
      which paths it touches and what it writes are the [Sys] state that is
      threaded through the calls.
    - [print] is taken to succeed: a standard output that cannot encode a
      file name is outside the embedding.
    - [glob.glob] is the answer of the world to a pattern, the directory
      part of the pattern included; what lies directly inside a directory
      is a separate answer, [listdir], that the program never asks for.
    - An exception that nothing catches is kept as its class and its
      message, both given by the world where a library raises it; the
      process then ends with status 1 and the last line of the traceback
      on the standard error. *)

From Stdlib Require Import Bool Arith ZArith Lia List Ascii String QArith Qminmax.
From Stdlib Require Import DecimalString Sorting.Sorted Sorting.Permutation.
Import ListNotations.

Close Scope Q_scope.
Close Scope Z_scope.
Open Scope nat_scope.
Open Scope list_scope.
Open Scope string_scope.

(** ** Python string operations used by the program *)

(** [str(n)] for a non-negative integer. *)
Definition str_of_nat (n : nat) : string :=
  NilZero.string_of_uint (Nat.to_uint n).

(** [s.replace(old, new)] for a non-empty [old]: the occurrences of [old] are
    found scanning from the left, and the scan resumes after each occurrence,
    so that occurrences never overlap and the result is not scanned again.
    [skip] counts the characters of the current occurrence still to drop. *)
Fixpoint replace_from (old new : string) (skip : nat) (s : string) : string :=
  match s with
  | EmptyString => EmptyString
  | String c rest =>
      match skip with
      | S k => replace_from old new k rest
      | O =>
          if prefix old s
          then new ++ replace_from old new (String.length old - 1) rest
          else String c (replace_from old new 0 rest)
      end
  end.

Definition replace (old new s : string) : string := replace_from old new 0 s.

(** [old in s]: [old] occurs somewhere in [s]. *)
Fixpoint occurs (old s : string) : bool :=
  match s with
  | EmptyString => prefix old EmptyString
  | String _ rest => prefix old s || occurs old rest
  end.

(** Lines 150 and 228: [name.replace(".pdf", "").replace("_", " ")]. *)
Definition display_name (name : string) : string :=
  replace "_" " " (replace ".pdf" "" name).

(** ** posixpath *)

Definition is_slash (c : ascii) : bool := Ascii.eqb c "/"%char.

Definition is_empty (s : string) : bool :=
  match s with EmptyString => true | String _ _ => false end.

(** [p.startswith("/")] and [p.endswith("/")]. *)
Definition starts_with_slash (s : string) : bool :=
  match s with String c _ => is_slash c | EmptyString => false end.

Fixpoint ends_with_slash (s : string) : bool :=
  match s with
  | EmptyString => false
  | String c EmptyString => is_slash c
  | String _ rest => ends_with_slash rest
  end.

(** One step of [os.path.join]: an absolute component restarts the path, an
    empty path or a path that ends in a slash takes the component as it is. *)
Definition join2 (path b : string) : string :=
  if starts_with_slash b then b
  else if is_empty path || ends_with_slash path then path ++ b
  else path ++ "/" ++ b.

Definition path_join (a : string) (p : list string) : string :=
  fold_left join2 p a.

(** [(p[:i], p[i:])] for [i = p.rfind("/") + 1]. *)
Fixpoint split_last_slash (p : string) : string * string :=
  match p with
  | EmptyString => (EmptyString, EmptyString)
  | String c rest =>
      let (head, tail) := split_last_slash rest in
      if is_empty head
      then if is_slash c then (String c EmptyString, tail)
           else (EmptyString, String c tail)
      else (String c head, tail)
  end.

(** [s.rstrip("/")]. *)
Fixpoint rstrip_slash (s : string) : string :=
  match s with
  | EmptyString => EmptyString
  | String c rest =>
      let rest' := rstrip_slash rest in
      if is_empty rest' && is_slash c then EmptyString else String c rest'
  end.

(** [head == "/" * len(head)]. *)
Fixpoint all_slashes (s : string) : bool :=
  match s with
  | EmptyString => true
  | String c rest => is_slash c && all_slashes rest
  end.

Definition dirname (p : string) : string :=
  let head := fst (split_last_slash p) in
  if negb (is_empty head) && negb (all_slashes head)
  then rstrip_slash head
  else head.

Definition basename (p : string) : string := snd (split_last_slash p).

(** [sorted(l)] on strings: the order is the lexicographic order of the
    characters, and any sort returns the one sorted permutation. *)
Fixpoint insert_sorted (x : string) (l : list string) : list string :=
  match l with
  | [] => [x]
  | y :: l' => if String.leb x y then x :: l else y :: insert_sorted x l'
  end.

Definition sorted (l : list string) : list string :=
  fold_right insert_sorted [] l.

(** ** Pages, drawing operations and the canvas (reportlab) *)

Definition inch : Z := 72000.
Definition letter : Z * Z := (612000, 792000)%Z.

(** What a canvas page holds: the drawing calls of the program, in order.
    Lengths and coordinates are in thousandths of a point, font sizes in
    points; the placement of the cover image is a rational number. *)
Inductive DrawOp : Type :=
| SetFillColor (hex : string)
| SetStrokeColor (hex : string)
| SetFont (face : string) (size : Z)
| SetLineWidth (width : Z)
| SetDash (pattern : list Z)
| DrawString (x y : Z) (text : string)
| DrawCentredString (x y : Z) (text : string)
| DrawRightString (x y : Z) (text : string)
| Line (x1 y1 x2 y2 : Z)
| Rect (x y width height : Z) (fill stroke : bool)
| DrawImage (path : string) (x y width height : Q).

(** A page is one drawn on a canvas, or page [index] of a source file. *)
Inductive Page : Type :=
| CanvasPage (pagesize : Z * Z) (content : list DrawOp)
| SourcePage (path : string) (index : nat).

(** [canvas.Canvas(buf, pagesize=...)]: the finished pages and the code of the
    page being drawn. *)
Record Canvas : Type := mkCanvas {
  pagesize : Z * Z;
  doc_title : option string;
  doc_pages : list Page;
  code : list DrawOp
}.

Definition new_canvas (size : Z * Z) : Canvas :=
  mkCanvas size None [] [].

Definition setTitle (t : string) (c : Canvas) : Canvas :=
  mkCanvas (pagesize c) (Some t) (doc_pages c) (code c).

Definition draw (ops : list DrawOp) (c : Canvas) : Canvas :=
  mkCanvas (pagesize c) (doc_title c) (doc_pages c) (code c ++ ops).

(** [c.showPage()] closes the current page and starts an empty one. *)
Definition showPage (c : Canvas) : Canvas :=
  mkCanvas (pagesize c) (doc_title c)
           (doc_pages c ++ [CanvasPage (pagesize c) (code c)]) [].

(** [c.save()] closes the current page when something was drawn on it; the
    pages of the document are what [PdfReader(buf).pages] then returns. *)
Definition save (c : Canvas) : list Page :=
  match code c with
  | [] => doc_pages c
  | _ :: _ => doc_pages (showPage c)
  end.

(** ** The world the program runs in, and the state it changes *)

Inductive ImageResult : Type :=
| ImageSize (img_w img_h : nat)
| ImageError (cause : string).

(** What [PdfReader(p)] gives: a reader whose pages are [pages]; the
    exception it raises, of message [cause]; or a reader that opens and
    whose pages cannot be listed (an encrypted or damaged file), so that
    [len(r.pages)] raises the exception of class [exc] and message [msg]. *)
Inductive PdfResult : Type :=
| PdfPages (pages : list Page)
| PdfError (cause : string)
| PdfBroken (exc msg : string).

(** What goes wrong in [with open(p, "wb") as f: writer.write(f)]: [open]
    raises, and the file is left as it was; or [open] has created or
    emptied the file and [writer.write] raises. *)
Inductive WriteError : Type :=
| OpenRaises (exc msg : string)
| WriteRaises (exc msg : string).

Record World : Type := mkWorld {
  (** [os.path.isdir(p)] *)
  isdir : string -> bool;
  (** [glob.glob(pattern)], in the order the directory lists them; the
      directory part of [pattern] is read as a pattern too *)
  glob : string -> list string;
  (** [os.path.exists(p)] *)
  path_exists : string -> bool;
  (** [Image.open(p).size], or the exception it raises *)
  image_open : string -> ImageResult;
  (** [c.drawImage(p, ...)]: [Some cause] when it raises *)
  draw_image_error : string -> option string;
  (** [PdfReader(p)] and the pages of the reader *)
  pdf_reader : string -> PdfResult;
  (** [c.stringWidth(s, "Helvetica", 11)] *)
  stringWidth : string -> Z;
  (** [with open(p, "wb") as f: writer.write(f)]: [None] when both
      succeed *)
  open_wb_error : string -> option WriteError;
  (** [os.listdir(d)]: the names directly inside the directory [d]; the
      program sees them through [glob] only *)
  listdir : string -> list string
}.

(** [PdfWriter]: the pages and the outline of the document being built. *)
Record PdfWriter : Type := mkWriter {
  pages : list Page;
  outline : list (string * nat)
}.

Definition add_page (pg : Page) (wr : PdfWriter) : PdfWriter :=
  mkWriter (pages wr ++ [pg]) (outline wr).

Definition add_pages (pgs : list Page) (wr : PdfWriter) : PdfWriter :=
  fold_left (fun acc pg => add_page pg acc) pgs wr.

Definition add_outline_item (title : string) (page_number : nat)
    (wr : PdfWriter) : PdfWriter :=
  mkWriter (pages wr) (outline wr ++ [(title, page_number)]).

(** The calls that read the world, as the program makes them. *)
Inductive Access : Type :=
| AIsDir (p : string)
| AGlob (pattern : string)
| AExists (p : string)
| AImageOpen (p : string)
| ADrawImage (p : string)
| APdfReader (p : string).

(** What the run has changed: the lines printed, the calls made, the files
    written in full, and the files that [open(p, "wb")] created or emptied
    and that were not written in full. *)
Record Sys : Type := mkSys {
  stdout : list string;
  stderr : list string;
  accesses : list Access;
  written : list (string * PdfWriter);
  truncated : list string
}.

Definition sys0 : Sys := mkSys [] [] [] [] [].

Definition print (line : string) (s : Sys) : Sys :=
  mkSys (stdout s ++ [line]) (stderr s) (accesses s) (written s)
        (truncated s).

Definition eprint (line : string) (s : Sys) : Sys :=
  mkSys (stdout s) (stderr s ++ [line]) (accesses s) (written s)
        (truncated s).

Definition access (a : Access) (s : Sys) : Sys :=
  mkSys (stdout s) (stderr s) (accesses s ++ [a]) (written s)
        (truncated s).

Definition write_file (p : string) (wr : PdfWriter) (s : Sys) : Sys :=
  mkSys (stdout s) (stderr s) (accesses s) (written s ++ [(p, wr)])
        (truncated s).

Definition truncate_file (p : string) (s : Sys) : Sys :=
  mkSys (stdout s) (stderr s) (accesses s) (written s)
        (truncated s ++ [p]).

(** How a call ends: it returns, [sys.exit(code)] is called, or an exception
    of class [exc] with message [msg] propagates. *)
Inductive Outcome (A : Type) : Type :=
| Returned (a : A)
| Exited (status : nat)
| Raised (exc msg : string).
Arguments Returned {A} a.
Arguments Exited {A} status.
Arguments Raised {A} exc msg.

(** ** [make_cover_pdf] (lines 22-67) *)

(** Lines 58-59 and 62-63: the title page drawn when there is no usable
    cover image. *)
Definition fallback_title (page_w page_h : Z) : list DrawOp :=
  [ SetFont "Helvetica-Bold" 36;
    DrawCentredString (page_w / 2) (page_h / 2) "Document Collection" ]%Z.

(** Lines 33-54, the body of the [try]: the canvas with the image drawn, or
    the message of the exception raised on the way.  A width or height of
    zero makes the division of line 38 raise. *)
Definition draw_cover_image (w : World) (cover_image_path : string)
    (page_w page_h : Z) (c : Canvas) (s : Sys) : (Canvas + string) * Sys :=
  let s := access (AImageOpen cover_image_path) s in
  match image_open w cover_image_path with
  | ImageError e => (inr e, s)
  | ImageSize img_w img_h =>
      if (img_w =? 0)%nat || (img_h =? 0)%nat
      then (inr "float division by zero", s)
      else
        let qw := inject_Z (Z.of_nat img_w) in
        let qh := inject_Z (Z.of_nat img_h) in
        let scale := Qmin (inject_Z page_w / qw) (inject_Z page_h / qh) in
        let new_w := (qw * scale)%Q in
        let new_h := (qh * scale)%Q in
        let x := ((inject_Z page_w - new_w) / inject_Z 2)%Q in
        let y := ((inject_Z page_h - new_h) / inject_Z 2)%Q in
        let s := access (ADrawImage cover_image_path) s in
        match draw_image_error w cover_image_path with
        | Some e => (inr e, s)
        | None => (inl (draw [DrawImage cover_image_path x y new_w new_h] c), s)
        end
  end.

Definition make_cover_pdf (w : World) (cover_image_path : string) (s : Sys)
    : list Page * Sys :=
  let c := new_canvas letter in
  let (page_w, page_h) := letter in
  let s := access (AExists cover_image_path) s in
  if path_exists w cover_image_path
  then
    match draw_cover_image w cover_image_path page_w page_h c s with
    | (inl c, s) => (save c, s)
    | (inr e, s) =>
        let s := print ("Warning: Could not add cover image: " ++ e) s in
        let c := draw (fallback_title page_w page_h) c in
        (save c, s)
    end
  else
    let c := draw (fallback_title page_w page_h) c in
    (save c, s).

(** ** [make_toc_pdf] (lines 70-179) *)

Definition page_w : Z := fst letter.
Definition page_h : Z := snd letter.
(** [0.9 * inch] *)
Definition margin : Z := 9 * inch / 10.
Definition right_margin : Z := page_w - margin.

Definition primary_color : string := "#2C3E50".
Definition accent_color : string := "#3498DB".
Definition text_color : string := "#34495E".

(** [0.32 * inch], the height of a row (line 170). *)
Definition row_height : Z := 32 * inch / 100.
(** [margin + 0.5 * inch], the lowest [y] a row is drawn at (line 109). *)
Definition min_row_y : Z := margin + 5 * inch / 10.

Definition continued_title : string := "Table of Contents (continued)".

(** The cursor of the row loop: the canvas, the height [y] of the next row
    and the number of the page being drawn. *)
Record TocState : Type := mkToc {
  cv : Canvas;
  y : Z;
  page_num : nat
}.

(** Lines 111-113 and 173-175: the page number at the bottom of a page. *)
Definition footer (page_num : nat) : list DrawOp :=
  [ SetFont "Helvetica" 9;
    SetFillColor "#95A5A6";
    DrawCentredString (page_w / 2) (5 * inch / 10)
                      ("- " ++ str_of_nat page_num ++ " -") ]%Z.

(** Lines 87-104: title, header and rule of the first page. *)
Definition toc_start : TocState :=
  let c := new_canvas letter in
  let y := (page_h - margin)%Z in
  let c := setTitle "Table of Contents" c in
  let c := draw [ SetFillColor primary_color;
                  SetFont "Helvetica-Bold" 28;
                  DrawString margin y "Table of Contents" ] c in
  let y := (y - 3 * inch / 10)%Z in
  let c := draw [ SetStrokeColor accent_color;
                  SetLineWidth 2000;
                  Line margin y (margin + 200000) y ]%Z c in
  let y := (y - 5 * inch / 10)%Z in
  let c := draw [ SetFillColor text_color;
                  SetStrokeColor text_color;
                  SetLineWidth 500 ] c in
  mkToc c y 1.

(** Lines 109-134: the page break taken before a row when [y] is below
    [margin + 0.5 * inch]. *)
Definition toc_new_page (st : TocState) : TocState :=
  let c := draw (footer (page_num st)) (cv st) in
  let c := showPage c in
  let page_num := (page_num st + 1)%nat in
  let y := (page_h - margin)%Z in
  let c := draw [ SetFillColor primary_color;
                  SetFont "Helvetica-Bold" 20;
                  DrawString margin y continued_title ] c in
  let y := (y - 15 * inch / 100)%Z in
  let c := draw [ SetStrokeColor accent_color;
                  SetLineWidth 1000;
                  Line margin y (margin + 150000) y ]%Z c in
  let y := (y - 4 * inch / 10)%Z in
  let c := draw [ SetFillColor text_color;
                  SetStrokeColor text_color;
                  SetLineWidth 500 ] c in
  mkToc c y page_num.

(** Lines 137-170: one row at the cursor. *)
Definition toc_draw_row (w : World) (idx : nat) (entry : string * nat)
    (st : TocState) : TocState :=
  let (name, start_page) := entry in
  let y := y st in
  let c := cv st in
  let c :=
    if (idx mod 2 =? 0)%nat
    then draw [ SetFillColor "#ECF0F1";
                Rect (margin - 10000) (y - 5000)
                     (right_margin - margin + 20000) (28 * inch / 100)
                     true false;
                SetFillColor text_color ]%Z c
    else c in
  let display_name := display_name name in
  let c := draw [ SetFont "Helvetica" 11;
                  DrawString margin y display_name ] c in
  let dot_start_x := (margin + stringWidth w display_name + 10000)%Z in
  let dot_end_x := (right_margin - 40000)%Z in
  let c :=
    if (dot_start_x <? dot_end_x)%Z
    then draw [ SetDash [2000; 4000];
                Line dot_start_x (y + 3000) dot_end_x (y + 3000);
                SetDash [] ]%Z c
    else c in
  let page_str := str_of_nat start_page in
  let c := draw [ SetFont "Helvetica-Bold" 11;
                  DrawRightString right_margin y page_str ] c in
  mkToc c (y - row_height)%Z (page_num st).

(** Lines 107-170: the body of the loop for the entry of index [idx]. *)
Definition toc_entry (w : World) (idx : nat) (entry : string * nat)
    (st : TocState) : TocState :=
  let st := if (y st <? min_row_y)%Z then toc_new_page st else st in
  toc_draw_row w idx entry st.

(** [for idx, (name, start_page) in enumerate(entries)], from index [idx]. *)
Fixpoint toc_entries (w : World) (idx : nat) (entries : list (string * nat))
    (st : TocState) : TocState :=
  match entries with
  | [] => st
  | e :: rest => toc_entries w (S idx) rest (toc_entry w idx e st)
  end.

Definition make_toc_pdf (w : World) (entries : list (string * nat))
    : list Page :=
  let st := toc_entries w 0 entries toc_start in
  let c := draw (footer (page_num st)) (cv st) in
  save c.

(** ** [merge_with_index] (lines 182-238) *)

(** What the first loop builds: the TOC entries [(name, start_page)], the
    opened readers [(name, pages)] and the count of pages seen so far; and
    the exception that has ended the loop, when one has. *)
Record Catalog : Type := mkCatalog {
  entries : list (string * nat);
  readers : list (string * list Page);
  page_cursor : nat;
  raised : option (string * string)
}.

Definition empty_catalog : Catalog := mkCatalog [] [] 0 None.

(** Lines 195-203: the body of the loop for the path [p].  Only the call
    of [PdfReader] is inside the [try]: when [len(r.pages)] raises on line
    203 the exception leaves the loop and the function, and no later path
    is looked at.  (The two lists have then received the file, and die with
    the call; the catalog keeps them as they stood before the file.) *)
Definition catalog_step (w : World) (acc : Catalog * Sys) (p : string)
    : Catalog * Sys :=
  let (cat, s) := acc in
  match raised cat with
  | Some _ => acc
  | None =>
      let s := access (APdfReader p) s in
      match pdf_reader w p with
      | PdfError e =>
          (cat, print ("WARNING: Skipping '" ++ p ++ "' (" ++ e ++ ")") s)
      | PdfPages r =>
          (mkCatalog (entries cat ++ [(basename p, page_cursor cat + 1)])
                     (readers cat ++ [(basename p, r)])
                     (page_cursor cat + List.length r)
                     None,
           s)
      | PdfBroken exc msg =>
          (mkCatalog (entries cat) (readers cat) (page_cursor cat)
                     (Some (exc, msg)),
           s)
      end
  end.

Definition build_catalog (w : World) (pdf_paths : list string) (s : Sys)
    : Catalog * Sys :=
  fold_left (catalog_step w) pdf_paths (empty_catalog, s).

(** Lines 226-234: the body of the loop for one reader; the bookmark is
    added at [running_index], before the pages it points to. *)
Definition append_document (acc : PdfWriter * nat) (doc : string * list Page)
    : PdfWriter * nat :=
  let (writer, running_index) := acc in
  let (name, reader) := doc in
  let bookmark_name := display_name name in
  let writer := add_outline_item bookmark_name running_index writer in
  let writer := add_pages reader writer in
  (writer, running_index + List.length reader).

(** Line 189, for [file] the value of [__file__]. *)
Definition cover_path (file : string) : string :=
  path_join (dirname file) ["static"; "cover.png"].

(** Lines 186-234: the writer as it stands before it is written out.  The
    two loops over [range(len(pdf.pages))] add the pages in order. *)
Definition build_document (w : World) (file : string)
    (pdf_paths : list string) (s : Sys) : Outcome PdfWriter * Sys :=
  let writer := mkWriter [] [] in
  let cover_path := cover_path file in
  let (cat, s) := build_catalog w pdf_paths s in
  match raised cat with
  | Some (exc, msg) => (Raised exc msg, s)
  | None =>
      match readers cat with
      | [] => (Raised "RuntimeError" "No readable PDFs to merge.", s)
      | _ :: _ =>
          let (cover_pdf, s) := make_cover_pdf w cover_path s in
          let cover_pages := List.length cover_pdf in
          let writer := add_pages cover_pdf writer in
          let toc_pdf := make_toc_pdf w (entries cat) in
          let toc_pages := List.length toc_pdf in
          let writer := add_pages toc_pdf writer in
          let writer := add_outline_item "Cover" 0 writer in
          let writer :=
            add_outline_item "Table of Contents" cover_pages writer in
          let running_index := cover_pages + toc_pages in
          let (writer, _) :=
            fold_left append_document (readers cat) (writer, running_index) in
          (Returned writer, s)
      end
  end.

(** Lines 236-238 end the function: [open] may raise, and [writer.write]
    may raise once [open] has created or emptied the file. *)
Definition merge_with_index (w : World) (file : string)
    (output_path : string) (pdf_paths : list string) (s : Sys)
    : Outcome unit * Sys :=
  match build_document w file pdf_paths s with
  | (Returned writer, s) =>
      match open_wb_error w output_path with
      | Some (OpenRaises exc msg) => (Raised exc msg, s)
      | Some (WriteRaises exc msg) =>
          (Raised exc msg, truncate_file output_path s)
      | None => (Returned tt, write_file output_path writer s)
      end
  | (Exited n, s) => (Exited n, s)
  | (Raised exc msg, s) => (Raised exc msg, s)
  end.

(** ** [main] (lines 241-261) and the script (lines 264-265) *)

(** The arrow of line 258, as its three UTF-8 bytes. *)
Definition arrow : string :=
  String (ascii_of_nat 226) (String (ascii_of_nat 134)
    (String (ascii_of_nat 146) EmptyString)).

(** [argv] is [sys.argv], the name of the program included. *)
Definition main (w : World) (file : string) (argv : list string) (s : Sys)
    : Outcome unit * Sys :=
  match argv with
  | [_; out_path; in_dir] =>
      let s := access (AIsDir in_dir) s in
      if negb (isdir w in_dir)
      then (Exited 1, print ("Error: '" ++ in_dir ++ "' is not a directory") s)
      else
        let pattern := path_join in_dir ["*.pdf"] in
        let s := access (AGlob pattern) s in
        let pdfs := sorted (glob w pattern) in
        match pdfs with
        | [] => (Exited 1, print ("No PDFs found in " ++ in_dir) s)
        | _ :: _ =>
            let s := print ("Merging " ++ str_of_nat (List.length pdfs)
                            ++ " PDFs from '" ++ in_dir ++ "' " ++ arrow
                            ++ " '" ++ out_path ++ "'") s in
            let s :=
              print "Adding cover page and beautiful Table of Contents..." s in
            match merge_with_index w file out_path pdfs s with
            | (Returned _, s) =>
                (Returned tt, print "Done. Your beautiful PDF is ready!" s)
            | (Exited n, s) => (Exited n, s)
            | (Raised exc msg, s) => (Raised exc msg, s)
            end
        end
  | _ => (Exited 1, print "Usage: python main.py OUTPUT.pdf INPUT_DIR" s)
  end.

(** The last line of a traceback: the class of the exception, and its
    message when it has one. *)
Definition traceback_line (exc msg : string) : string :=
  if is_empty msg then exc else exc ++ ": " ++ msg.

(** The process: [main()] run as a script.  An exception that nothing
    catches ends the process with status 1, after the interpreter has
    printed the traceback on the standard error; its last line, the class
    and the message of the exception, is what is kept of it here. *)
Definition run (w : World) (file : string) (argv : list string)
    : nat * Sys :=
  match main w file argv sys0 with
  | (Returned _, s) => (0, s)
  | (Exited status, s) => (status, s)
  | (Raised exc msg, s) => (1, eprint (traceback_line exc msg) s)
  end.

(** * Vocabulary of the properties *)

(** [s.removesuffix(suffix)] for a non-empty [suffix].  The program never
    calls it: it is the removal of a trailing suffix that the specification
    describes. *)
Fixpoint removesuffix (suffix s : string) : string :=
  match s with
  | EmptyString => EmptyString
  | String c rest =>
      if String.eqb s suffix then EmptyString
      else String c (removesuffix suffix rest)
  end.

(** The display name in the words of the specification: the trailing
    [".pdf"] removed, then every underscore replaced by a space. *)
Definition display_name_spec (name : string) : string :=
  replace "_" " " (removesuffix ".pdf" name).

(** Character-wise substitution, what [replace "_" " "] amounts to. *)
Fixpoint map_chars (f : ascii -> ascii) (s : string) : string :=
  match s with
  | EmptyString => EmptyString
  | String c rest => String (f c) (map_chars f rest)
  end.

Definition underscore_to_space (c : ascii) : ascii :=
  if Ascii.eqb c "_"%char then " "%char else c.

(** What the cover renderer finds at the path of the cover image: nothing,
    an image that cannot be decoded or drawn (with the message of the
    exception), or an image of a given size in pixels that can be drawn. *)
Inductive CoverImage : Type :=
| Absent
| Unusable (cause : string)
| Usable (img_w img_h : nat).

Definition cover_image (w : World) (p : string) : CoverImage :=
  if path_exists w p then
    match image_open w p with
    | ImageError e => Unusable e
    | ImageSize img_w img_h =>
        if (img_w =? 0)%nat || (img_h =? 0)%nat
        then Unusable "float division by zero"
        else match draw_image_error w p with
             | Some e => Unusable e
             | None => Usable img_w img_h
             end
    end
  else Absent.

(** The one page of the fallback cover. *)
Definition fallback_page : Page :=
  CanvasPage letter (fallback_title 612000 792000).

Definition cover_warning (e : string) : string :=
  "Warning: Could not add cover image: " ++ e.

(** The continuation header is the text of line 122, drawn at the left
    margin and at the top margin; a row is never drawn that high, so a file
    whose display name is the text of the header is not mistaken for it. *)
Definition is_continued_header (op : DrawOp) : bool :=
  match op with
  | DrawString x y text =>
      (x =? margin)%Z && (y =? page_h - margin)%Z
      && String.eqb text continued_title
  | _ => false
  end.


(** The usable height of a TOC page: from the first row of the first page
    down to the bottom margin. *)
Definition usable_height : Z := y toc_start - margin.

(** The state of the TOC cursor once [k] entries are drawn: [k] is
    [26 * j + r] with [j] pages closed and [r <= 25], and [y] stands [r] rows
    below the first of them. *)
Definition toc_layout (k : nat) (st : TocState) : Prop :=
  exists r : nat,
    r <= 25 /\
    k = 26 * List.length (doc_pages (cv st)) + r /\
    y st = ((match doc_pages (cv st) with
             | [] => 669600
             | _ :: _ => 664560
             end) - 23040 * Z.of_nat r)%Z.


(** ** The catalog and the bookmarks, as functions of the readable files *)

(** A file is readable when it opens and its pages can be listed. *)
Definition readable (w : World) (p : string) : bool :=
  match pdf_reader w p with
  | PdfPages _ => true
  | PdfError _ | PdfBroken _ _ => false
  end.

(** A file opens when [PdfReader] returns a reader for it. *)
Definition opens (w : World) (p : string) : bool :=
  match pdf_reader w p with
  | PdfPages _ | PdfBroken _ _ => true
  | PdfError _ => false
  end.

(** The exception of the first file that opens and whose pages cannot be
    listed, if there is one. *)
Fixpoint first_broken (w : World) (paths : list string)
    : option (string * string) :=
  match paths with
  | [] => None
  | p :: rest =>
      match pdf_reader w p with
      | PdfBroken exc msg => Some (exc, msg)
      | PdfPages _ | PdfError _ => first_broken w rest
      end
  end.

(** The paths the first loop reaches: all of them, or those up to the
    first file that opens and whose pages cannot be listed. *)
Fixpoint scanned (w : World) (paths : list string) : list string :=
  match paths with
  | [] => []
  | p :: rest =>
      match pdf_reader w p with
      | PdfBroken _ _ => [p]
      | PdfPages _ | PdfError _ => p :: scanned w rest
      end
  end.

(** The pages of a source file, none when it is not readable. *)
Definition pages_of (w : World) (p : string) : list Page :=
  match pdf_reader w p with
  | PdfPages r => r
  | PdfError _ | PdfBroken _ _ => []
  end.

Definition page_count (w : World) (p : string) : nat :=
  List.length (pages_of w p).

(** The readers of the files that open, in the order of the paths. *)
Definition opened (w : World) (paths : list string)
    : list (string * list Page) :=
  flat_map (fun p => match pdf_reader w p with
                     | PdfPages r => [(basename p, r)]
                     | PdfError _ | PdfBroken _ _ => []
                     end) paths.

Definition total_pages (docs : list (string * list Page)) : nat :=
  list_sum (map (fun d => List.length (snd d)) docs).

(** The TOC entries of [docs] when [cursor] pages come before them. *)
Fixpoint start_pages (cursor : nat) (docs : list (string * list Page))
    : list (string * nat) :=
  match docs with
  | [] => []
  | (name, r) :: rest =>
      (name, cursor + 1) :: start_pages (cursor + List.length r) rest
  end.

(** The bookmarks of [docs] when the first of them starts at [index]. *)
Fixpoint bookmarks (index : nat) (docs : list (string * list Page))
    : list (string * nat) :=
  match docs with
  | [] => []
  | (name, r) :: rest =>
      (display_name name, index) :: bookmarks (index + List.length r) rest
  end.

Definition skip_warning (p e : string) : string :=
  "WARNING: Skipping '" ++ p ++ "' (" ++ e ++ ")".

Definition skip_warnings (w : World) (paths : list string) : list string :=
  flat_map (fun p => match pdf_reader w p with
                     | PdfPages _ | PdfBroken _ _ => []
                     | PdfError e => [skip_warning p e]
                     end) paths.

(** The cover and the TOC of a run over [paths]. *)
Definition cover_of (w : World) (file : string) : list Page :=
  fst (make_cover_pdf w (cover_path file) sys0).

Definition toc_of (w : World) (paths : list string) : list Page :=
  make_toc_pdf w (start_pages 0 (opened w paths)).

(** The writer of lines 186-234, in one expression. *)
Definition assembled (w : World) (file : string) (paths : list string)
    : PdfWriter :=
  mkWriter
    (cover_of w file ++ toc_of w paths ++ List.concat (map snd (opened w paths)))
    (("Cover", 0)
     :: ("Table of Contents", List.length (cover_of w file))
     :: bookmarks (List.length (cover_of w file) + List.length (toc_of w paths))
                  (opened w paths)).

(** The state after the first loop: one warning per file that does not
    open, one access per path. *)
Definition catalog_sys (w : World) (paths : list string) (s : Sys) : Sys :=
  mkSys (stdout s ++ skip_warnings w paths) (stderr s)
        (accesses s ++ map APdfReader paths) (written s) (truncated s).

(** The state after the cover is rendered. *)
Definition cover_sys (w : World) (file : string) (paths : list string)
    (s : Sys) : Sys :=
  snd (make_cover_pdf w (cover_path file) (catalog_sys w paths s)).

(** An access that asks for an image asks for the one at [p]. *)
Definition image_access_at (p : string) (a : Access) : Prop :=
  match a with
  | AExists q | AImageOpen q | ADrawImage q => q = p
  | AIsDir _ | AGlob _ | APdfReader _ => True
  end.

(** ** Sample worlds *)

(** The pages of a source file of [n] pages. *)
Definition source_pages (p : string) (n : nat) : list Page :=
  map (SourcePage p) (seq 0 n).

(** The scenario of the specification: a directory [in] with [b.pdf] (2
    pages), [a.pdf] (1 page), [c.pdf] (5 pages) and a file [bad.pdf] that
    does not open; no cover image. *)
Definition sample_world : World :=
  mkWorld
    (fun d => String.eqb d "in")
    (fun pat => if String.eqb pat "in/*.pdf"
                then ["in/b.pdf"; "in/a.pdf"; "in/c.pdf"; "in/bad.pdf"]
                else [])
    (fun _ => false)
    (fun _ => ImageError "cannot identify image file")
    (fun _ => None)
    (fun p => if String.eqb p "in/a.pdf" then PdfPages (source_pages p 1)
              else if String.eqb p "in/b.pdf" then PdfPages (source_pages p 2)
              else if String.eqb p "in/c.pdf" then PdfPages (source_pages p 5)
              else PdfError "EOF marker not found")
    (fun s => 5000 * Z.of_nat (String.length s))%Z
    (fun _ => None)
    (fun d => if String.eqb d "in"
              then ["b.pdf"; "a.pdf"; "c.pdf"; "bad.pdf"] else []).

(** A directory [in] with [a.pdf], a readable PDF of no page, and [b.pdf]
    of one page. *)
Definition empty_pdf_world : World :=
  mkWorld
    (fun d => String.eqb d "in")
    (fun pat => if String.eqb pat "in/*.pdf"
                then ["in/a.pdf"; "in/b.pdf"] else [])
    (fun _ => false)
    (fun _ => ImageError "cannot identify image file")
    (fun _ => None)
    (fun p => if String.eqb p "in/a.pdf" then PdfPages []
              else if String.eqb p "in/b.pdf" then PdfPages (source_pages p 1)
              else PdfError "EOF marker not found")
    (fun s => 5000 * Z.of_nat (String.length s))%Z
    (fun _ => None)
    (fun d => if String.eqb d "in" then ["a.pdf"; "b.pdf"] else []).

(** A directory [empty] without PDF, and a directory [in] whose one PDF,
    [x.pdf], does not open. *)
Definition broken_world : World :=
  mkWorld
    (fun d => String.eqb d "in" || String.eqb d "empty")
    (fun pat => if String.eqb pat "in/*.pdf" then ["in/x.pdf"] else [])
    (fun _ => false)
    (fun _ => ImageError "cannot identify image file")
    (fun _ => None)
    (fun _ => PdfError "EOF marker not found")
    (fun s => 5000 * Z.of_nat (String.length s))%Z
    (fun _ => None)
    (fun d => if String.eqb d "in" then ["x.pdf"] else []).

(** The sample directory with one more file, [locked.pdf], which opens and
    whose pages cannot be listed: it is encrypted. *)
Definition locked_world : World :=
  mkWorld
    (fun d => String.eqb d "in")
    (fun pat => if String.eqb pat "in/*.pdf"
                then ["in/locked.pdf"; "in/a.pdf"; "in/bad.pdf"] else [])
    (fun _ => false)
    (fun _ => ImageError "cannot identify image file")
    (fun _ => None)
    (fun p => if String.eqb p "in/a.pdf" then PdfPages (source_pages p 1)
              else if String.eqb p "in/locked.pdf"
                   then PdfBroken "PyPDF2.errors.FileNotDecryptedError"
                                  "File has not been decrypted"
                   else PdfError "EOF marker not found")
    (fun s => 5000 * Z.of_nat (String.length s))%Z
    (fun _ => None)
    (fun d => if String.eqb d "in"
              then ["locked.pdf"; "a.pdf"; "bad.pdf"] else []).

(** An empty directory named [[x]] beside a directory [x] that holds
    [a.pdf]: the pattern [[x]/*.pdf] is that of the files of [x]. *)
Definition bracket_world : World :=
  mkWorld
    (fun d => String.eqb d "[x]" || String.eqb d "x")
    (fun pat => if String.eqb pat "[x]/*.pdf" || String.eqb pat "x/*.pdf"
                then ["x/a.pdf"] else [])
    (fun _ => false)
    (fun _ => ImageError "cannot identify image file")
    (fun _ => None)
    (fun p => if String.eqb p "x/a.pdf" then PdfPages (source_pages p 1)
              else PdfError "EOF marker not found")
    (fun s => 5000 * Z.of_nat (String.length s))%Z
    (fun _ => None)
    (fun d => if String.eqb d "x" then ["a.pdf"] else []).

(** ** The drawing operations of the TOC, in order *)

Definition page_ops (pg : Page) : list DrawOp :=
  match pg with
  | CanvasPage _ ops => ops
  | SourcePage _ _ => []
  end.

(** The operations of all the pages of a document, first page first. *)
Definition document_ops (pgs : list Page) : list DrawOp :=
  flat_map page_ops pgs.

(** The operations drawn so far by the row loop, the page in progress
    included. *)
Definition all_ops (st : TocState) : list DrawOp :=
  (document_ops (doc_pages (cv st)) ++ code (cv st))%list.

(** What lines 137-168 draw for the entry of index [idx] at height [y]. *)
Definition row_ops (w : World) (idx : nat) (entry : string * nat) (y : Z)
    : list DrawOp :=
  ((if (idx mod 2 =? 0)%nat
    then [ SetFillColor "#ECF0F1";
           Rect (margin - 10000) (y - 5000)
                (right_margin - margin + 20000) (28 * inch / 100) true false;
           SetFillColor text_color ]%Z
    else [])
   ++ [ SetFont "Helvetica" 11;
        DrawString margin y (display_name (fst entry)) ]
   ++ (if (margin + stringWidth w (display_name (fst entry)) + 10000
           <? right_margin - 40000)%Z
       then [ SetDash [2000; 4000];
              Line (margin + stringWidth w (display_name (fst entry)) + 10000)
                   (y + 3000) (right_margin - 40000) (y + 3000);
              SetDash [] ]%Z
       else [])
   ++ [ SetFont "Helvetica-Bold" 11;
        DrawRightString right_margin y (str_of_nat (snd entry)) ])%list.

(** What lines 120-134 draw at the top of a continuation page. *)
Definition continuation_ops : list DrawOp :=
  [ SetFillColor primary_color;
    SetFont "Helvetica-Bold" 20;
    DrawString margin (page_h - margin) continued_title;
    SetStrokeColor accent_color;
    SetLineWidth 1000;
    Line margin (page_h - margin - 15 * inch / 100)
         (margin + 150000) (page_h - margin - 15 * inch / 100);
    SetFillColor text_color;
    SetStrokeColor text_color;
    SetLineWidth 500 ]%Z.

(** What one turn of the loop draws from the cursor [st]. *)
Definition entry_ops (w : World) (idx : nat) (entry : string * nat)
    (st : TocState) : list DrawOp :=
  if (y st <? min_row_y)%Z
  then (footer (page_num st) ++ continuation_ops
        ++ row_ops w idx entry 687600)%list
  else row_ops w idx entry (y st).

Fixpoint entries_ops (w : World) (idx : nat) (entries : list (string * nat))
    (st : TocState) : list DrawOp :=
  match entries with
  | [] => []
  | e :: rest =>
      (entry_ops w idx e st
       ++ entries_ops w (S idx) rest (toc_entry w idx e st))%list
  end.

(** The start page a row prints, right-aligned. *)
Definition printed_number (op : DrawOp) : list string :=
  match op with
  | DrawRightString _ _ text => [text]
  | _ => []
  end.

(** The name a row prints: text drawn with [drawString] below the top
    margin, where only the two headers stand. *)
Definition printed_name (op : DrawOp) : list string :=
  match op with
  | DrawString _ y text => if (y <? page_h - margin)%Z then [text] else []
  | _ => []
  end.

(** The marks of a row: [true] for its highlight rectangle, [false] for
    its page number. *)
Definition row_marks (op : DrawOp) : list bool :=
  match op with
  | Rect _ _ _ _ _ _ => [true]
  | DrawRightString _ _ _ => [false]
  | _ => []
  end.

(** A line is horizontal and runs from left to right over a positive
    length. *)
Definition line_ok (op : DrawOp) : Prop :=
  match op with
  | Line x1 y1 x2 y2 => (x1 < x2)%Z /\ y1 = y2
  | _ => True
  end.

(** A row is drawn between the threshold of the page break and the first
    row of a continuation page. *)
Definition row_in_band (op : DrawOp) : Prop :=
  match op with
  | DrawRightString _ y _ => (min_row_y <= y <= 687600)%Z
  | Rect _ y _ _ _ _ => (min_row_y - 5000 <= y <= 687600 - 5000)%Z
  | _ => True
  end.

(** The pages closed so far are letter pages that end with the footer of
    their number, and [page_num] is the number of the page in progress. *)
Definition toc_numbered (st : TocState) : Prop :=
  page_num st = S (List.length (doc_pages (cv st))) /\
  pagesize (cv st) = letter /\
  forall k pg,
    nth_error (doc_pages (cv st)) k = Some pg ->
    exists ops, pg = CanvasPage letter (ops ++ footer (S k)).

(** ** The run of [main] over a directory *)

(** The paths [main] hands to [merge_with_index] for the directory [dir]. *)
Definition found (w : World) (dir : string) : list string :=
  sorted (glob w (path_join dir ["*.pdf"])).

(** The state when [merge_with_index] is called: the directory was
    tested and listed, and the two progress lines are printed. *)
Definition progress_sys (w : World) (out dir : string) : Sys :=
  print "Adding cover page and beautiful Table of Contents..."
    (print ("Merging " ++ str_of_nat (List.length (found w dir))
            ++ " PDFs from '" ++ dir ++ "' " ++ arrow
            ++ " '" ++ out ++ "'")
       (access (AGlob (path_join dir ["*.pdf"]))
          (access (AIsDir dir) sys0))).

(** The warning the cover renderer prints, if any. *)
Definition cover_warnings (w : World) (p : string) : list string :=
  match cover_image w p with
  | Unusable e => [cover_warning e]
  | Absent | Usable _ _ => []
  end.

(** The sample directory, with an output path that cannot be opened for
    writing. *)
Definition readonly_world : World :=
  mkWorld (isdir sample_world) (glob sample_world)
          (path_exists sample_world) (image_open sample_world)
          (draw_image_error sample_world) (pdf_reader sample_world)
          (stringWidth sample_world)
          (fun _ => Some (OpenRaises "PermissionError"
                            "[Errno 13] Permission denied: 'out.pdf'"))
          (listdir sample_world).

(** The sample directory, with a disk that fills up while the output is
    written. *)
Definition full_disk_world : World :=
  mkWorld (isdir sample_world) (glob sample_world)
          (path_exists sample_world) (image_open sample_world)
          (draw_image_error sample_world) (pdf_reader sample_world)
          (stringWidth sample_world)
          (fun _ => Some (WriteRaises "OSError"
                            "[Errno 28] No space left on device"))
          (listdir sample_world).

(** The world [w] with another answer of the glob. *)
Definition with_glob (g : string -> list string) (w : World) : World :=
  mkWorld (isdir w) g (path_exists w) (image_open w) (draw_image_error w)
          (pdf_reader w) (stringWidth w) (open_wb_error w) (listdir w).

(** The order of [sorted]. *)
Definition string_le (a b : string) : Prop := String.leb a b = true.

(** * Properties of the string operations *)

Section Replace.

Variables old new : string.

(** The equations of [replace_from]. *)
Lemma replace_from_nil (k : nat) : replace_from old new k "" = "".
Proof. destruct k; reflexivity. Qed.

Lemma replace_from_skip (k : nat) (c : ascii) (rest : string) :
  replace_from old new (S k) (String c rest) = replace_from old new k rest.
Proof. reflexivity. Qed.

Lemma replace_from_scan (c : ascii) (rest : string) :
  replace_from old new 0 (String c rest) =
  if prefix old (String c rest)
  then new ++ replace_from old new (String.length old - 1) rest
  else String c (replace_from old new 0 rest).
Proof. reflexivity. Qed.

Lemma occurs_cons (c : ascii) (rest : string) :
  occurs old (String c rest) = prefix old (String c rest) || occurs old rest.
Proof. reflexivity. Qed.

Lemma replace_from_no_occurrence (s : string) :
  occurs old s = false -> replace_from old new 0 s = s.
Proof.
  induction s as [|c rest IH]; intros H; [reflexivity|].
  rewrite occurs_cons in H. apply orb_false_iff in H. destruct H as [Hp Ho].
  rewrite replace_from_scan, Hp, IH by assumption. reflexivity.
Qed.

Lemma replace_no_occurrence (s : string) :
  occurs old s = false -> replace old new s = s.
Proof. apply replace_from_no_occurrence. Qed.

End Replace.

Lemma append_length (a b : string) :
  String.length (a ++ b) = String.length a + String.length b.
Proof. induction a; simpl; auto. Qed.

(** Removing occurrences never lengthens, whatever is still to skip. *)
Lemma remove_from_length_le (old : string) (s : string) (k : nat) :
  String.length (replace_from old "" k s) <= String.length s.
Proof.
  revert k. induction s as [|c rest IH]; intros k.
  - rewrite replace_from_nil. apply Nat.le_refl.
  - destruct k as [|k].
    + rewrite replace_from_scan.
      destruct (prefix old (String c rest)); simpl.
      * specialize (IH (String.length old - 1)). lia.
      * specialize (IH 0). lia.
    + rewrite replace_from_skip. specialize (IH k). simpl. lia.
Qed.

(** Removing a string that occurs shortens. *)
Lemma remove_occurring_shortens (old s : string) :
  old <> "" -> occurs old s = true ->
  String.length (replace old "" s) < String.length s.
Proof.
  intros Hne. unfold replace. induction s as [|c rest IH]; intros H.
  - destruct old; [congruence | discriminate].
  - rewrite occurs_cons in H. rewrite replace_from_scan.
    destruct (prefix old (String c rest)); simpl in *.
    + pose proof (remove_from_length_le old rest (String.length old - 1)). lia.
    + apply IH in H. lia.
Qed.

(** [replace "_" " "] is the character-wise substitution. *)
Lemma prefix_empty (s : string) : prefix "" s = true.
Proof. destruct s; reflexivity. Qed.

Lemma replace_underscore_map (s : string) :
  replace "_" " " s = map_chars underscore_to_space s.
Proof.
  unfold replace. induction s as [|c rest IH]; [reflexivity|].
  rewrite replace_from_scan.
  change (String.length "_" - 1) with 0. rewrite IH.
  cbn [map_chars prefix]. rewrite prefix_empty. unfold underscore_to_space.
  destruct (ascii_dec "_" c) as [<-|Hc]; [reflexivity|].
  destruct (Ascii.eqb c "_") eqn:E; [|reflexivity].
  apply Ascii.eqb_eq in E. congruence.
Qed.

Lemma underscore_to_space_idem (c : ascii) :
  underscore_to_space (underscore_to_space c) = underscore_to_space c.
Proof.
  unfold underscore_to_space.
  destruct (Ascii.eqb c "_") eqn:E; [reflexivity | now rewrite E].
Qed.

Lemma replace_underscore_idem (s : string) :
  replace "_" " " (replace "_" " " s) = replace "_" " " s.
Proof.
  rewrite !replace_underscore_map.
  induction s as [|c rest IH]; simpl; [reflexivity|].
  now rewrite underscore_to_space_idem, IH.
Qed.

Lemma replace_underscore_length (s : string) :
  String.length (replace "_" " " s) = String.length s.
Proof.
  rewrite replace_underscore_map. induction s; simpl; auto.
Qed.

(** The display name is no longer than the name, and shorter as soon as
    [".pdf"] occurs in the name. *)
Lemma display_name_shortens (s : string) :
  occurs ".pdf" s = true ->
  String.length (display_name s) < String.length s.
Proof.
  intros H. unfold display_name. rewrite replace_underscore_length.
  apply remove_occurring_shortens; [discriminate | assumption].
Qed.

Lemma display_name_stable (s : string) :
  occurs ".pdf" (display_name s) = false ->
  display_name (display_name s) = display_name s.
Proof.
  intros H. unfold display_name at 1.
  rewrite (replace_no_occurrence ".pdf" "" _ H).
  unfold display_name. apply replace_underscore_idem.
Qed.

(** The condition is the exact one: when [".pdf"] occurs in the display
    name, a second application shortens it. *)
Lemma display_name_idempotent_iff (s : string) :
  display_name (display_name s) = display_name s <->
  occurs ".pdf" (display_name s) = false.
Proof.
  split; [|apply display_name_stable].
  intros H. destruct (occurs ".pdf" (display_name s)) eqn:E; [|reflexivity].
  apply display_name_shortens in E. rewrite H in E. lia.
Qed.

(** C5, amended: applying the display-name transformation a second time
    changes nothing for every name whose display name contains no
    occurrence of [".pdf"]. *)
Theorem display_name_idempotent_without_pdf (s : string) :
  occurs ".pdf" (display_name s) = false ->
  display_name (display_name s) = display_name s.
Proof. apply display_name_stable. Qed.

Lemma display_name_idempotent_without_pdf_witness :
  occurs ".pdf" (display_name "my_notes.pdf") = false /\
  display_name (display_name "my_notes.pdf") = display_name "my_notes.pdf".
Proof.
  split; [reflexivity|].
  apply (display_name_idempotent_without_pdf "my_notes.pdf"). reflexivity.
Defined.

(** C5, as stated, fails: removing the inner [".pdf"] of ["a.p.pdfdf"]
    brings a new [".pdf"] together, which the second application removes. *)
Lemma display_name_not_idempotent :
  display_name "a.p.pdfdf" = "a.pdf" /\
  display_name (display_name "a.p.pdfdf") = "a" /\
  display_name (display_name "a.p.pdfdf") <> display_name "a.p.pdfdf".
Proof. split; [reflexivity | split; [reflexivity | discriminate]]. Qed.

(** Where the program and the specification agree: on a name that ends in
    [".pdf"] and holds no other occurrence of it. *)
Lemma removesuffix_app (stem : string) :
  removesuffix ".pdf" (stem ++ ".pdf") = stem.
Proof.
  induction stem as [|c stem IH]; [reflexivity|].
  cbn [append removesuffix]. rewrite IH.
  destruct (String.eqb (String c (stem ++ ".pdf")) ".pdf") eqn:E;
    [|reflexivity].
  apply String.eqb_eq in E. apply (f_equal String.length) in E.
  cbn [String.length] in E. rewrite append_length in E. simpl in E. lia.
Qed.

Lemma prefix_pdf_trailing (c : ascii) (t : string) :
  prefix ".pdf" (String c (t ++ ".pdf")) =
  prefix ".pdf" (String c (t ++ ".pd")).
Proof.
  destruct t as [|a [|b [|d t]]]; cbn [append prefix];
    repeat (match goal with
            | |- context [ascii_dec ?x ?y] => destruct (ascii_dec x y)
            end; try reflexivity; try congruence);
    rewrite ?prefix_empty; try reflexivity; subst; discriminate.
Qed.

Lemma remove_pdf_app (stem : string) :
  occurs ".pdf" (stem ++ ".pd") = false ->
  replace ".pdf" "" (stem ++ ".pdf") = stem.
Proof.
  unfold replace. induction stem as [|c stem IH]; intros H; [reflexivity|].
  cbn [append] in *. rewrite occurs_cons in H.
  apply orb_false_iff in H. destruct H as [Hp Ho].
  rewrite replace_from_scan, prefix_pdf_trailing, Hp, IH by assumption.
  reflexivity.
Qed.

Lemma display_name_matches_spec (stem : string) :
  occurs ".pdf" (stem ++ ".pd") = false ->
  display_name (stem ++ ".pdf") = display_name_spec (stem ++ ".pdf").
Proof.
  intros H. unfold display_name, display_name_spec.
  now rewrite remove_pdf_app, removesuffix_app.
Qed.

(** C4: on a name that holds [".pdf"] before its extension, the program
    removes both occurrences, where the specification removes the trailing
    one only. *)
Theorem display_name_removes_inner_pdf :
  display_name "a.pdf_b.pdf" = "a b" /\
  display_name_spec "a.pdf_b.pdf" = "a.pdf b" /\
  display_name "a.pdf_b.pdf" <> display_name_spec "a.pdf_b.pdf".
Proof. split; [reflexivity | split; [reflexivity | discriminate]]. Qed.

(** * Properties of the canvas and of the cover renderer *)

Lemma save_nonempty (c : Canvas) :
  code c <> [] ->
  save c = (doc_pages c ++ [CanvasPage (pagesize c) (code c)])%list.
Proof.
  unfold save, showPage. destruct (code c); [congruence | reflexivity].
Qed.

Lemma make_cover_pdf_cases (w : World) (p : string) (s : Sys) :
  match cover_image w p with
  | Absent =>
      fst (make_cover_pdf w p s) = [fallback_page] /\
      stdout (snd (make_cover_pdf w p s)) = stdout s
  | Unusable e =>
      fst (make_cover_pdf w p s) = [fallback_page] /\
      stdout (snd (make_cover_pdf w p s)) = (stdout s ++ [cover_warning e])%list
  | Usable img_w img_h =>
      (exists x y new_w new_h,
         fst (make_cover_pdf w p s) =
         [CanvasPage letter [DrawImage p x y new_w new_h]]) /\
      stdout (snd (make_cover_pdf w p s)) = stdout s
  end.
Proof.
  unfold cover_image, make_cover_pdf, draw_cover_image. cbn [letter].
  destruct (path_exists w p); [|split; reflexivity].
  destruct (image_open w p) as [iw ih|e]; [|split; reflexivity].
  destruct ((iw =? 0)%nat || (ih =? 0)%nat); [split; reflexivity|].
  destruct (draw_image_error w p) as [e|]; [split; reflexivity|].
  split; [|reflexivity]. repeat eexists.
Qed.


(** * Properties of the TOC renderer *)



Lemma toc_new_page_spec (st : TocState) :
  doc_pages (cv (toc_new_page st)) =
    (doc_pages (cv st) ++
     [CanvasPage (pagesize (cv st)) (code (cv st) ++ footer (page_num st))])%list
  /\ pagesize (cv (toc_new_page st)) = pagesize (cv st)
  /\ existsb is_continued_header (code (cv (toc_new_page st))) = true
  /\ y (toc_new_page st) = 687600%Z
  /\ page_num (toc_new_page st) = page_num st + 1.
Proof. repeat split. Qed.

Lemma toc_draw_row_spec (w : World) (idx : nat) (e : string * nat)
    (st : TocState) :
  doc_pages (cv (toc_draw_row w idx e st)) = doc_pages (cv st)
  /\ pagesize (cv (toc_draw_row w idx e st)) = pagesize (cv st)
  /\ y (toc_draw_row w idx e st) = (y st - 23040)%Z
  /\ page_num (toc_draw_row w idx e st) = page_num st
  /\ exists ops,
       code (cv (toc_draw_row w idx e st)) = (code (cv st) ++ ops)%list /\
       ((y st < page_h - margin)%Z ->
        existsb is_continued_header ops = false).
Proof.
  destruct e as [name start_page]. unfold toc_draw_row.
  destruct (idx mod 2 =? 0)%nat;
    destruct (margin + stringWidth w (display_name name) + 10000
              <? right_margin - 40000)%Z;
    cbn [cv y page_num draw doc_pages pagesize code];
    (split; [reflexivity|]; split; [reflexivity|]; split; [reflexivity|];
     split; [reflexivity|]);
    rewrite <- ?app_assoc;
    (eexists; split; [reflexivity|]); intros Hy;
    cbn [existsb app is_continued_header];
    replace (y st =? page_h - margin)%Z with false
      by (symmetry; apply Z.eqb_neq; lia);
    rewrite ?andb_false_r; reflexivity.
Qed.


(** The constants of the layout, evaluated. *)
Ltac layout_constants :=
  change min_row_y with 100800%Z in *;
  change row_height with 23040%Z in *;
  change usable_height with 604800%Z in *;
  change (page_h - margin)%Z with 727200%Z in *.

Lemma toc_start_layout : toc_layout 0 toc_start.
Proof. exists 0. repeat split. apply Nat.le_0_l. Qed.

Lemma toc_entry_layout (w : World) (idx : nat) (e : string * nat)
    (st : TocState) (k : nat) :
  toc_layout k st -> toc_layout (S k) (toc_entry w idx e st).
Proof.
  intros (r & Hr & Hk & Hy). unfold toc_entry, toc_layout.
  destruct (Z.ltb_spec (y st) min_row_y) as [Hlt|Hge]; layout_constants.
  - destruct (toc_draw_row_spec w idx e (toc_new_page st))
      as (-> & _ & -> & _).
    destruct (toc_new_page_spec st) as (-> & _ & _ & -> & _).
    exists 0. rewrite length_app. cbn [List.length].
    assert (r = 25)
      by (revert Hy; destruct (doc_pages (cv st)); intros; lia).
    split; [lia|]. split; [lia|].
    destruct (doc_pages (cv st)); reflexivity.
  - destruct (toc_draw_row_spec w idx e st) as (-> & _ & -> & _).
    exists (S r).
    assert (r <= 24)
      by (revert Hy; destruct (doc_pages (cv st)); intros; lia).
    split; [lia|]. split; [lia|]. rewrite Hy. lia.
Qed.

Lemma toc_entries_layout (w : World) (es : list (string * nat)) :
  forall (idx : nat) (st : TocState) (k : nat),
    toc_layout k st ->
    toc_layout (k + List.length es) (toc_entries w idx es st).
Proof.
  induction es as [|e es IH]; intros idx st k H; cbn [toc_entries List.length].
  - now rewrite Nat.add_0_r.
  - rewrite Nat.add_succ_r, <- Nat.add_succ_l.
    apply IH. now apply toc_entry_layout.
Qed.

(** Whenever the loop compares [y] with the threshold, the two are at least
    7.2 points apart: the rounding of the floating-point sums of the source,
    far below a point, never decides the comparison. *)
Lemma toc_threshold_clearance (k : nat) (st : TocState) :
  toc_layout k st -> (7200 <= Z.abs (y st - min_row_y))%Z.
Proof.
  intros (r & Hr & _ & Hy). layout_constants.
  revert Hy. destruct (doc_pages (cv st)); intros; lia.
Qed.

Lemma make_toc_pdf_pages (w : World) (entries : list (string * nat)) :
  let st := toc_entries w 0 entries toc_start in
  make_toc_pdf w entries =
  (doc_pages (cv st) ++
   [CanvasPage (pagesize (cv st)) (code (cv st) ++ footer (page_num st))])%list.
Proof.
  intros st. unfold make_toc_pdf. fold st. rewrite save_nonempty.
  - reflexivity.
  - cbn [draw code]. destruct (code (cv st)); discriminate.
Qed.

(** The number of TOC pages: 25 rows fit the first page and 26 every
    later one. *)
Lemma make_toc_pdf_length (w : World) (entries : list (string * nat)) :
  List.length (make_toc_pdf w entries) = 1 + List.length entries / 26.
Proof.
  rewrite make_toc_pdf_pages, length_app. cbn [List.length].
  destruct (toc_entries_layout w entries 0 toc_start 0 toc_start_layout)
    as (r & Hr & Hk & _).
  cbn [Nat.add] in Hk. rewrite Hk.
  rewrite (Nat.mul_comm 26), Nat.div_add_l, (Nat.div_small r 26) by lia.
  lia.
Qed.






(** The TOC has more than one page exactly from 26 entries on. *)
Lemma toc_more_than_one_page_iff (w : World) (entries : list (string * nat)) :
  1 < List.length (make_toc_pdf w entries) <-> 26 <= List.length entries.
Proof.
  rewrite make_toc_pdf_length. split; intros H.
  - destruct (Nat.lt_ge_cases (List.length entries) 26) as [Hlt|Hge];
      [|assumption].
    rewrite (Nat.div_small _ _ Hlt) in H. lia.
  - pose proof (Nat.Div0.div_le_mono 26 (List.length entries) 26 H) as Hd.
    change (26 / 26) with 1 in Hd. lia.
Qed.



(** * Properties of the assembler *)

Lemma make_cover_pdf_pages_any_sys (w : World) (p : string) (s s' : Sys) :
  fst (make_cover_pdf w p s) = fst (make_cover_pdf w p s').
Proof.
  unfold make_cover_pdf, draw_cover_image. cbn [letter].
  destruct (path_exists w p); [|reflexivity].
  destruct (image_open w p) as [iw ih|e]; [|reflexivity].
  destruct ((iw =? 0)%nat || (ih =? 0)%nat); [reflexivity|].
  destruct (draw_image_error w p); reflexivity.
Qed.

(** What rendering the cover does to the state: it prints at most a
    warning, touches the path of the image only, and writes nothing. *)
Lemma make_cover_pdf_effects (w : World) (p : string) (s : Sys) :
  written (snd (make_cover_pdf w p s)) = written s /\
  stderr (snd (make_cover_pdf w p s)) = stderr s /\
  (exists warnings,
     stdout (snd (make_cover_pdf w p s)) = (stdout s ++ warnings)%list) /\
  (exists touched,
     accesses (snd (make_cover_pdf w p s)) = (accesses s ++ touched)%list /\
     Forall (fun a => a = AExists p \/ a = AImageOpen p \/ a = ADrawImage p)
            touched).
Proof.
  unfold make_cover_pdf, draw_cover_image. cbn [letter].
  destruct (path_exists w p);
    [destruct (image_open w p) as [iw ih|e];
     [destruct ((iw =? 0)%nat || (ih =? 0)%nat);
      [|destruct (draw_image_error w p)]|]|];
    cbn [snd written stderr stdout accesses access print];
    (split; [reflexivity|]; split; [reflexivity|]; split;
     [first [eexists; reflexivity | exists []; symmetry; apply app_nil_r]
     |rewrite <- ?app_assoc; eexists; split; [reflexivity|];
      repeat (apply Forall_cons; [auto|]); apply Forall_nil]).
Qed.

(** The cover depends on the world at the path of the image alone. *)
Lemma make_cover_pdf_depends_on_path (w1 w2 : World) (p : string) (s : Sys) :
  path_exists w1 p = path_exists w2 p ->
  image_open w1 p = image_open w2 p ->
  draw_image_error w1 p = draw_image_error w2 p ->
  make_cover_pdf w1 p s = make_cover_pdf w2 p s.
Proof.
  intros H1 H2 H3. unfold make_cover_pdf, draw_cover_image.
  now rewrite H1, H2, H3.
Qed.

Lemma add_pages_spec (pgs : list Page) (wr : PdfWriter) :
  add_pages pgs wr = mkWriter (pages wr ++ pgs) (outline wr).
Proof.
  unfold add_pages. revert wr.
  induction pgs as [|pg pgs IH]; intros wr; cbn [fold_left].
  - rewrite app_nil_r. now destruct wr.
  - rewrite IH. unfold add_page. cbn [pages outline].
    now rewrite <- app_assoc.
Qed.

Lemma total_pages_cons (name : string) (r : list Page)
    (docs : list (string * list Page)) :
  total_pages ((name, r) :: docs) = List.length r + total_pages docs.
Proof. reflexivity. Qed.

Lemma scanned_all (w : World) (paths : list string) :
  first_broken w paths = None -> scanned w paths = paths.
Proof.
  induction paths as [|p paths IH]; [reflexivity|].
  cbn [first_broken scanned].
  destruct (pdf_reader w p); intros H; try discriminate H;
    now rewrite IH.
Qed.

(** Once an exception has left the loop, nothing more happens in it. *)
Lemma catalog_loop_raised (w : World) (paths : list string) :
  forall (cat : Catalog) (s : Sys) (e : string * string),
    raised cat = Some e ->
    fold_left (catalog_step w) paths (cat, s) = (cat, s).
Proof.
  induction paths as [|p paths IH]; intros cat s e H; [reflexivity|].
  cbn [fold_left]. unfold catalog_step at 2. rewrite H. now apply (IH _ _ e).
Qed.

(** The first loop, whatever it starts from. *)
Lemma catalog_loop_spec (w : World) (paths : list string) :
  forall (cat : Catalog) (s : Sys),
    raised cat = None ->
    fold_left (catalog_step w) paths (cat, s) =
    (mkCatalog
       (entries cat
        ++ start_pages (page_cursor cat) (opened w (scanned w paths)))
       (readers cat ++ opened w (scanned w paths))
       (page_cursor cat + total_pages (opened w (scanned w paths)))
       (first_broken w paths),
     mkSys (stdout s ++ skip_warnings w (scanned w paths)) (stderr s)
           (accesses s ++ map APdfReader (scanned w paths)) (written s)
           (truncated s))%list.
Proof.
  induction paths as [|p paths IH]; intros cat s Hr.
  - cbn. rewrite !app_nil_r, Nat.add_0_r. destruct cat, s. cbn in *.
    now subst.
  - cbn [fold_left]. unfold catalog_step at 2. rewrite Hr.
    cbn [first_broken scanned].
    destruct (pdf_reader w p) as [r|e|exc msg] eqn:E.
    + rewrite IH by reflexivity. unfold opened, skip_warnings.
      cbn [flat_map map]. rewrite E.
      fold (opened w (scanned w paths)).
      fold (skip_warnings w (scanned w paths)).
      cbn [entries readers page_cursor stdout stderr accesses written
           truncated access print app start_pages].
      rewrite <- !app_assoc. cbn [app].
      now rewrite total_pages_cons, Nat.add_assoc.
    + rewrite IH by assumption. unfold opened, skip_warnings.
      cbn [flat_map map]. rewrite E.
      fold (opened w (scanned w paths)).
      fold (skip_warnings w (scanned w paths)).
      cbn [stdout stderr accesses written truncated access print app].
      rewrite <- !app_assoc. reflexivity.
    + rewrite (catalog_loop_raised w paths _ _ (exc, msg)) by reflexivity.
      unfold opened, skip_warnings. cbn [flat_map map]. rewrite E.
      cbn [app start_pages access stdout stderr accesses written truncated].
      unfold total_pages. cbn [map list_sum fold_right].
      now rewrite !app_nil_r, Nat.add_0_r.
Qed.

Lemma build_catalog_spec (w : World) (paths : list string) (s : Sys) :
  build_catalog w paths s =
  (mkCatalog (start_pages 0 (opened w (scanned w paths)))
             (opened w (scanned w paths))
             (total_pages (opened w (scanned w paths)))
             (first_broken w paths),
   catalog_sys w (scanned w paths) s).
Proof. unfold build_catalog. now rewrite catalog_loop_spec. Qed.

(** The second loop, whatever it starts from. *)
Lemma append_documents_spec (docs : list (string * list Page)) :
  forall (wr : PdfWriter) (index : nat),
    fold_left append_document docs (wr, index) =
    (mkWriter (pages wr ++ List.concat (map snd docs))
              (outline wr ++ bookmarks index docs),
     index + total_pages docs)%list.
Proof.
  induction docs as [|[name r] docs IH]; intros wr index.
  - cbn. rewrite !app_nil_r, Nat.add_0_r. now destruct wr.
  - cbn [fold_left append_document]. rewrite IH, add_pages_spec.
    unfold add_outline_item.
    cbn [pages outline map snd List.concat bookmarks].
    rewrite total_pages_cons, <- !app_assoc, Nat.add_assoc. reflexivity.
Qed.

Lemma build_document_spec (w : World) (file : string) (paths : list string)
    (s : Sys) :
  build_document w file paths s =
  match first_broken w paths with
  | Some (exc, msg) => (Raised exc msg, catalog_sys w (scanned w paths) s)
  | None =>
      match opened w paths with
      | [] => (Raised "RuntimeError" "No readable PDFs to merge.",
               catalog_sys w paths s)
      | _ :: _ =>
          (Returned (assembled w file paths), cover_sys w file paths s)
      end
  end.
Proof.
  unfold build_document. rewrite build_catalog_spec.
  cbn [raised readers entries].
  destruct (first_broken w paths) as [[exc msg]|] eqn:Hb; [reflexivity|].
  rewrite (scanned_all w paths Hb).
  destruct (opened w paths) as [|d docs] eqn:E; [reflexivity|].
  rewrite <- E.
  rewrite (surjective_pairing
             (make_cover_pdf w (cover_path file) (catalog_sys w paths s))).
  rewrite (make_cover_pdf_pages_any_sys w (cover_path file) _ sys0).
  fold (cover_of w file). fold (toc_of w paths).
  fold (cover_sys w file paths s).
  rewrite !add_pages_spec. unfold add_outline_item.
  cbn [pages outline app]. rewrite append_documents_spec.
  cbn [pages outline app]. unfold assembled.
  now rewrite <- app_assoc.
Qed.

Lemma merge_with_index_spec (w : World) (file out : string)
    (paths : list string) (s : Sys) :
  merge_with_index w file out paths s =
  match first_broken w paths with
  | Some (exc, msg) => (Raised exc msg, catalog_sys w (scanned w paths) s)
  | None =>
      match opened w paths with
      | [] => (Raised "RuntimeError" "No readable PDFs to merge.",
               catalog_sys w paths s)
      | _ :: _ =>
          match open_wb_error w out with
          | Some (OpenRaises exc msg) =>
              (Raised exc msg, cover_sys w file paths s)
          | Some (WriteRaises exc msg) =>
              (Raised exc msg, truncate_file out (cover_sys w file paths s))
          | None => (Returned tt,
                     write_file out (assembled w file paths)
                                (cover_sys w file paths s))
          end
      end
  end.
Proof.
  unfold merge_with_index. rewrite build_document_spec.
  destruct (first_broken w paths) as [[exc msg]|]; [reflexivity|].
  destruct (opened w paths); reflexivity.
Qed.

(** A container is returned exactly when no file that opens keeps its
    pages back and some file is readable; it is then [assembled]. *)
Lemma build_document_returned (w : World) (file : string)
    (paths : list string) (s : Sys) (wr : PdfWriter) :
  fst (build_document w file paths s) = Returned wr ->
  first_broken w paths = None /\ opened w paths <> [] /\
  wr = assembled w file paths.
Proof.
  rewrite build_document_spec.
  destruct (first_broken w paths) as [[exc msg]|]; [discriminate|].
  destruct (opened w paths); [discriminate|].
  intros [= <-]. repeat split. discriminate.
Qed.

Lemma first_broken_none_of_readable (w : World) (paths : list string) :
  forallb (readable w) paths = true -> first_broken w paths = None.
Proof.
  induction paths as [|p paths IH]; [reflexivity|].
  cbn [forallb first_broken]. unfold readable at 1.
  destruct (pdf_reader w p); try discriminate. exact IH.
Qed.

(** ** What the files that open contribute *)

Lemma opened_cons (w : World) (p : string) (paths : list string) :
  opened w (p :: paths) =
  (match pdf_reader w p with
   | PdfPages r => [(basename p, r)]
   | PdfError _ | PdfBroken _ _ => []
   end ++ opened w paths)%list.
Proof. reflexivity. Qed.

Lemma opened_filter (w : World) (paths : list string) :
  opened w (filter (readable w) paths) = opened w paths.
Proof.
  induction paths as [|p paths IH]; [reflexivity|].
  cbn [filter]. unfold readable at 1.
  destruct (pdf_reader w p) as [r|e|exc msg] eqn:E.
  - rewrite !opened_cons, E, IH. reflexivity.
  - rewrite opened_cons, E, IH. reflexivity.
  - rewrite opened_cons, E, IH. reflexivity.
Qed.

Lemma opened_length (w : World) (paths : list string) :
  List.length (opened w paths) = List.length (filter (readable w) paths).
Proof.
  induction paths as [|p paths IH]; [reflexivity|].
  rewrite opened_cons, length_app, IH. cbn [filter]. unfold readable at 2.
  destruct (pdf_reader w p); reflexivity.
Qed.

Lemma opened_pages (w : World) (paths : list string) :
  List.concat (map snd (opened w paths)) = List.concat (map (pages_of w) paths).
Proof.
  induction paths as [|p paths IH]; [reflexivity|].
  rewrite opened_cons, map_app, concat_app, IH. cbn [map List.concat].
  unfold pages_of at 2.
  destruct (pdf_reader w p); cbn; [|reflexivity|reflexivity].
  now rewrite app_nil_r.
Qed.

Lemma total_pages_app (a b : list (string * list Page)) :
  total_pages (a ++ b) = total_pages a + total_pages b.
Proof. unfold total_pages. now rewrite map_app, list_sum_app. Qed.

Lemma opened_total_pages (w : World) (paths : list string) :
  total_pages (opened w paths) = list_sum (map (page_count w) paths).
Proof.
  induction paths as [|p paths IH]; [reflexivity|].
  rewrite opened_cons, total_pages_app, IH. cbn [map list_sum].
  unfold page_count at 2, pages_of.
  destruct (pdf_reader w p); unfold total_pages, list_sum in *; cbn; lia.
Qed.

Lemma opened_nonempty (w : World) (paths : list string) :
  existsb (readable w) paths = true -> opened w paths <> [].
Proof.
  induction paths as [|p paths IH]; [discriminate|].
  cbn [existsb]. rewrite opened_cons. unfold readable at 1.
  destruct (pdf_reader w p); [discriminate| |]; exact IH.
Qed.

Lemma opened_empty (w : World) (paths : list string) :
  existsb (readable w) paths = false -> opened w paths = [].
Proof.
  induction paths as [|p paths IH]; [reflexivity|].
  cbn [existsb]. rewrite opened_cons. unfold readable at 1.
  destruct (pdf_reader w p); [discriminate| |]; exact IH.
Qed.

Lemma cover_of_length (w : World) (file : string) :
  List.length (cover_of w file) = 1.
Proof.
  unfold cover_of.
  pose proof (make_cover_pdf_cases w (cover_path file) sys0) as H.
  destruct (cover_image w (cover_path file)).
  - now destruct H as [-> _].
  - now destruct H as [-> _].
  - now destruct H as [(x & y & nw & nh & ->) _].
Qed.

Lemma concat_length_sum (l : list (list Page)) :
  List.length (List.concat l) = list_sum (map (@List.length Page) l).
Proof.
  induction l as [|a l IH]; [reflexivity|].
  cbn [List.concat map list_sum]. now rewrite length_app, IH.
Qed.

(** C1: over a non-empty list of paths that all open, the run writes one
    container, made of the pages of the cover, then of the TOC, then of each
    source file in the order of the paths; the number of its pages is the
    sum of theirs. *)
Theorem merged_page_count (w : World) (file out : string)
    (paths : list string) (s : Sys) :
  paths <> [] ->
  forallb (readable w) paths = true ->
  open_wb_error w out = None ->
  exists wr,
    fst (merge_with_index w file out paths s) = Returned tt /\
    written (snd (merge_with_index w file out paths s)) =
      (written s ++ [(out, wr)])%list /\
    pages wr =
      (cover_of w file ++ toc_of w paths
       ++ List.concat (map (pages_of w) paths))%list /\
    List.length (pages wr) =
      List.length (cover_of w file) + List.length (toc_of w paths)
      + list_sum (map (page_count w) paths).
Proof.
  intros Hne Hall Hopen. rewrite merge_with_index_spec, Hopen.
  rewrite (first_broken_none_of_readable w paths Hall).
  assert (opened w paths <> []) as Hdocs.
  { apply opened_nonempty. destruct paths as [|p paths]; [congruence|].
    cbn [forallb existsb] in *. apply andb_prop in Hall. now rewrite (proj1 Hall). }
  destruct (opened w paths) as [|d docs] eqn:E; [congruence|].
  exists (assembled w file paths). split; [reflexivity|].
  split; [|split].
  - unfold write_file, cover_sys. cbn [snd written].
    now rewrite (proj1 (make_cover_pdf_effects w _ _)).
  - unfold assembled. cbn [pages]. now rewrite opened_pages.
  - unfold assembled. cbn [pages].
    rewrite !length_app, concat_length_sum, map_map.
    fold (total_pages (opened w paths)). rewrite opened_total_pages. lia.
Qed.

Lemma merged_page_count_witness :
  exists wr,
    fst (merge_with_index sample_world "main.py" "out.pdf"
           ["in/a.pdf"; "in/b.pdf"; "in/c.pdf"] sys0) = Returned tt /\
    written (snd (merge_with_index sample_world "main.py" "out.pdf"
                    ["in/a.pdf"; "in/b.pdf"; "in/c.pdf"] sys0)) =
      (written sys0 ++ [("out.pdf", wr)])%list /\
    pages wr =
      (cover_of sample_world "main.py"
       ++ toc_of sample_world ["in/a.pdf"; "in/b.pdf"; "in/c.pdf"]
       ++ List.concat (map (pages_of sample_world)
                           ["in/a.pdf"; "in/b.pdf"; "in/c.pdf"]))%list /\
    List.length (pages wr) =
      List.length (cover_of sample_world "main.py")
      + List.length (toc_of sample_world ["in/a.pdf"; "in/b.pdf"; "in/c.pdf"])
      + list_sum (map (page_count sample_world)
                      ["in/a.pdf"; "in/b.pdf"; "in/c.pdf"]).
Proof.
  apply (merged_page_count sample_world "main.py" "out.pdf"
           ["in/a.pdf"; "in/b.pdf"; "in/c.pdf"] sys0);
    [discriminate | reflexivity | reflexivity].
Defined.

(** ** Start pages *)

Lemma total_pages_firstn_S (docs : list (string * list Page)) :
  forall (i : nat) (name : string) (r : list Page),
    nth_error docs i = Some (name, r) ->
    total_pages (firstn (S i) docs) =
    total_pages (firstn i docs) + List.length r.
Proof.
  induction docs as [|[n0 r0] docs IH]; intros i name r H.
  - destruct i; discriminate.
  - destruct i as [|i].
    + injection H as -> ->. cbn [firstn]. rewrite total_pages_cons.
      unfold total_pages. cbn. lia.
    + cbn [nth_error] in H. specialize (IH i name r H).
      change (firstn (S (S i)) ((n0, r0) :: docs))
        with ((n0, r0) :: firstn (S i) docs).
      change (firstn (S i) ((n0, r0) :: docs))
        with ((n0, r0) :: firstn i docs).
      rewrite !total_pages_cons, IH. lia.
Qed.

Lemma start_pages_nth (docs : list (string * list Page)) :
  forall (cursor i : nat) (name : string) (start_page : nat),
    nth_error (start_pages cursor docs) i = Some (name, start_page) ->
    start_page = cursor + 1 + total_pages (firstn i docs) /\
    exists r, nth_error docs i = Some (name, r).
Proof.
  induction docs as [|[n0 r0] docs IH]; intros cursor i name sp H.
  - destruct i; discriminate.
  - destruct i as [|i]; cbn [start_pages nth_error] in H.
    + injection H as <- <-. split; [cbn; lia|]. now exists r0.
    + destruct (IH _ _ _ _ H) as [-> [r Hr]]. split; [|now exists r].
      change (firstn (S i) ((n0, r0) :: docs))
        with ((n0, r0) :: firstn i docs).
      rewrite total_pages_cons. lia.
Qed.

(** C3: in the catalog, the start page of the first entry is 1, the start
    page of entry [i] is 1 plus the page counts of the entries before it
    (source documents only), and it is the start page of entry [i - 1] plus
    the page count of entry [i - 1]. *)
Theorem catalog_start_pages (w : World) (paths : list string) (s : Sys)
    (i : nat) (name : string) (start_page : nat) :
  let cat := fst (build_catalog w paths s) in
  nth_error (entries cat) i = Some (name, start_page) ->
  start_page = 1 + total_pages (firstn i (readers cat)) /\
  (i = 0 -> start_page = 1) /\
  (forall j prev start_prev,
     i = S j ->
     nth_error (entries cat) j = Some (prev, start_prev) ->
     exists r,
       nth_error (readers cat) j = Some (prev, r) /\
       start_page = start_prev + List.length r).
Proof.
  rewrite build_catalog_spec. cbn [fst entries readers]. intros H.
  destruct (start_pages_nth _ _ _ _ _ H) as [Hsp _].
  split; [lia|]. split.
  - intros ->. cbn in Hsp. lia.
  - intros j prev sp' -> Hj.
    destruct (start_pages_nth _ _ _ _ _ Hj) as [Hsp' [r Hr]].
    exists r. split; [assumption|].
    rewrite (total_pages_firstn_S _ _ _ _ Hr) in Hsp. lia.
Qed.

Lemma catalog_start_pages_witness :
  nth_error (entries (fst (build_catalog sample_world
      ["in/a.pdf"; "in/b.pdf"; "in/bad.pdf"; "in/c.pdf"] sys0))) 2
    = Some ("c.pdf", 4) /\
  4 = 1 + total_pages (firstn 2 (readers (fst (build_catalog sample_world
      ["in/a.pdf"; "in/b.pdf"; "in/bad.pdf"; "in/c.pdf"] sys0)))).
Proof.
  split; [reflexivity|].
  apply (catalog_start_pages sample_world
           ["in/a.pdf"; "in/b.pdf"; "in/bad.pdf"; "in/c.pdf"] sys0
           2 "c.pdf" 4).
  reflexivity.
Defined.

(** ** Bookmarks *)

Lemma bookmarks_length (docs : list (string * list Page)) :
  forall index, List.length (bookmarks index docs) = List.length docs.
Proof.
  induction docs as [|[n r] docs IH]; intros index; cbn; [|rewrite IH];
    reflexivity.
Qed.

Lemma bookmarks_nth (docs : list (string * list Page)) :
  forall (index i : nat) (name : string) (r : list Page),
    nth_error docs i = Some (name, r) ->
    nth_error (bookmarks index docs) i =
    Some (display_name name, index + total_pages (firstn i docs)).
Proof.
  induction docs as [|[n0 r0] docs IH]; intros index i name r H.
  - destruct i; discriminate.
  - destruct i as [|i]; cbn [nth_error bookmarks] in *.
    + injection H as -> ->. cbn. now rewrite Nat.add_0_r.
    + rewrite (IH _ _ _ _ H).
      change (firstn (S i) ((n0, r0) :: docs))
        with ((n0, r0) :: firstn i docs).
      now rewrite total_pages_cons, Nat.add_assoc.
Qed.

(** The targets of the bookmarks of the documents never decrease, and none
    is below the index of the first. *)
Lemma bookmarks_sorted (docs : list (string * list Page)) :
  forall index,
    Forall (le index) (map snd (bookmarks index docs)) /\
    StronglySorted le (map snd (bookmarks index docs)).
Proof.
  induction docs as [|[n r] docs IH]; intros index; cbn [bookmarks map snd].
  - split; constructor.
  - destruct (IH (index + List.length r)) as [Hge Hs].
    assert (Forall (le index) (map snd (bookmarks (index + List.length r) docs)))
      by (eapply Forall_impl; [|exact Hge]; cbv beta; intros; lia).
    split; constructor; auto.
Qed.

(** They increase strictly when every document has a page. *)
Lemma bookmarks_strictly_sorted (docs : list (string * list Page)) :
  Forall (fun d => 0 < List.length (snd d)) docs ->
  forall index,
    StronglySorted lt (map snd (bookmarks index docs)).
Proof.
  induction 1 as [|[n r] docs Hr Hdocs IH]; intros index;
    cbn [bookmarks map snd]; constructor.
  - apply IH.
  - cbn [snd] in Hr.
    eapply Forall_impl;
      [|exact (proj1 (bookmarks_sorted docs (index + List.length r)))].
    cbv beta. intros. lia.
Qed.

Lemma toc_of_length_pos (w : World) (paths : list string) :
  0 < List.length (toc_of w paths).
Proof. unfold toc_of. rewrite make_toc_pdf_length. lia. Qed.

(** C2, amended: a run over N files that open adds exactly N+2 bookmarks:
    "Cover" at index 0, "Table of Contents" at the page count of the cover,
    and one per document, titled by its display name, at the page counts of
    the cover, of the TOC and of the documents before it; the targets never
    decrease, the first three increase strictly (cover, TOC, first
    document), and all increase strictly when every document has at least
    one page. *)
Theorem bookmarks_of_run (w : World) (file : string) (paths : list string)
    (s : Sys) (wr : PdfWriter) :
  fst (build_document w file paths s) = Returned wr ->
  let docs := opened w paths in
  let c := List.length (cover_of w file) in
  let t := List.length (toc_of w paths) in
  List.length (outline wr) = List.length (filter (readable w) paths) + 2 /\
  nth_error (outline wr) 0 = Some ("Cover", 0) /\
  nth_error (outline wr) 1 = Some ("Table of Contents", c) /\
  (forall i name r,
     nth_error docs i = Some (name, r) ->
     nth_error (outline wr) (2 + i) =
     Some (display_name name, c + t + total_pages (firstn i docs))) /\
  StronglySorted le (map snd (outline wr)) /\
  0 < c /\ c < c + t /\
  (Forall (fun d => 0 < List.length (snd d)) docs ->
   StronglySorted lt (map snd (outline wr))).
Proof.
  intros H. apply build_document_returned in H.
  destruct H as (_ & _ & ->). intros docs c t.
  pose proof (cover_of_length w file) as Hc. fold c in Hc.
  pose proof (toc_of_length_pos w paths) as Ht. fold t in Ht.
  unfold assembled. fold c t docs. cbn [outline List.length map snd nth_error].
  destruct (bookmarks_sorted docs (c + t)) as [Hge Hs].
  split; [rewrite bookmarks_length; unfold docs; rewrite opened_length; lia|].
  split; [reflexivity|]. split; [reflexivity|].
  split; [intros i name r H; exact (bookmarks_nth docs (c + t) i name r H)|].
  split.
  { constructor; [constructor; [assumption|]|].
    - eapply Forall_impl; [|exact Hge]. cbv beta. intros. lia.
    - constructor; [lia|]. eapply Forall_impl; [|exact Hge].
      cbv beta. intros. lia. }
  split; [lia|]. split; [lia|]. intros Hpos.
  constructor; [constructor; [now apply bookmarks_strictly_sorted|]|].
  - eapply Forall_impl; [|exact Hge]. cbv beta. intros. lia.
  - constructor; [lia|]. eapply Forall_impl; [|exact Hge].
    cbv beta. intros. lia.
Qed.

Lemma bookmarks_of_run_witness :
  List.length (outline (assembled sample_world "main.py"
      ["in/a.pdf"; "in/b.pdf"; "in/bad.pdf"; "in/c.pdf"])) = 3 + 2 /\
  StronglySorted lt (map snd (outline (assembled sample_world "main.py"
      ["in/a.pdf"; "in/b.pdf"; "in/bad.pdf"; "in/c.pdf"]))).
Proof.
  assert (fst (build_document sample_world "main.py"
                 ["in/a.pdf"; "in/b.pdf"; "in/bad.pdf"; "in/c.pdf"] sys0) =
          Returned (assembled sample_world "main.py"
                      ["in/a.pdf"; "in/b.pdf"; "in/bad.pdf"; "in/c.pdf"]))
    as E by (vm_compute; reflexivity).
  pose proof (bookmarks_of_run sample_world "main.py"
                ["in/a.pdf"; "in/b.pdf"; "in/bad.pdf"; "in/c.pdf"] sys0
                (assembled sample_world "main.py"
                   ["in/a.pdf"; "in/b.pdf"; "in/bad.pdf"; "in/c.pdf"])
                E) as H.
  split; [exact (proj1 H)|].
  apply (proj2 (proj2 (proj2 (proj2 (proj2 (proj2 (proj2 H))))))).
  repeat constructor.
Defined.

(** C2, as stated, fails: a readable PDF without pages gives its bookmark
    the index of the next one. *)
Lemma bookmarks_not_strictly_increasing :
  fst (build_document empty_pdf_world "main.py" ["in/a.pdf"; "in/b.pdf"] sys0)
  = Returned (assembled empty_pdf_world "main.py" ["in/a.pdf"; "in/b.pdf"]) /\
  outline (assembled empty_pdf_world "main.py" ["in/a.pdf"; "in/b.pdf"])
  = [("Cover", 0); ("Table of Contents", 1); ("a", 2); ("b", 2)] /\
  ~ StronglySorted lt
      (map snd (outline (assembled empty_pdf_world "main.py"
                           ["in/a.pdf"; "in/b.pdf"]))).
Proof.
  split; [reflexivity|]. split; [reflexivity|].
  intros H. cbn in H.
  repeat match goal with
         | H : StronglySorted _ (_ :: _) |- _ => inversion H; subst; clear H
         | H : Forall _ (_ :: _) |- _ => inversion H; subst; clear H
         end.
  lia.
Qed.

(** ** Files that do not open *)

Lemma skip_warnings_In (w : World) (paths : list string) (p e : string) :
  In p paths -> pdf_reader w p = PdfError e ->
  In (skip_warning p e) (skip_warnings w paths).
Proof.
  intros Hin He. unfold skip_warnings. apply in_flat_map.
  exists p. split; [assumption|]. rewrite He. now left.
Qed.

Lemma skip_warnings_filter (w : World) (paths : list string) :
  skip_warnings w (filter (readable w) paths) = [].
Proof.
  induction paths as [|p paths IH]; [reflexivity|].
  cbn [filter]. unfold readable at 1.
  destruct (pdf_reader w p) as [r|e|exc msg] eqn:E; try exact IH.
  unfold skip_warnings. cbn [flat_map]. rewrite E. exact IH.
Qed.

Lemma first_broken_filter (w : World) (paths : list string) :
  first_broken w (filter (readable w) paths) = None.
Proof.
  induction paths as [|p paths IH]; [reflexivity|].
  cbn [filter]. unfold readable at 1.
  destruct (pdf_reader w p) as [r|e|exc msg] eqn:E; try exact IH.
  cbn [first_broken]. rewrite E. exact IH.
Qed.

Lemma assembled_filter (w : World) (file : string) (paths : list string) :
  assembled w file (filter (readable w) paths) = assembled w file paths.
Proof. unfold assembled, toc_of. now rewrite opened_filter. Qed.

Lemma cover_sys_written (w : World) (file : string) (paths : list string)
    (s : Sys) :
  written (cover_sys w file paths s) = written s.
Proof.
  unfold cover_sys. now rewrite (proj1 (make_cover_pdf_effects w _ _)).
Qed.

Lemma cover_sys_stdout (w : World) (file : string) (paths : list string)
    (s : Sys) :
  exists warnings,
    stdout (cover_sys w file paths s) =
    ((stdout s ++ skip_warnings w paths) ++ warnings)%list.
Proof.
  unfold cover_sys.
  destruct (make_cover_pdf_effects w (cover_path file) (catalog_sys w paths s))
    as (_ & _ & [ws Hws] & _).
  exists ws. exact Hws.
Qed.

(** X18: when every file that opens lets its pages be listed and at least
    one file is readable, every path that does not open gets its warning,
    with the path and the cause, on the standard output; the run goes on
    and builds a container; and the catalog (entries, start pages,
    readers), the container (pages and bookmarks) and what is written are
    those of a run over the readable paths alone. *)
Theorem unreadable_files_are_skipped (w : World) (file out : string)
    (paths : list string) (s : Sys) :
  first_broken w paths = None ->
  existsb (readable w) paths = true ->
  let good := filter (readable w) paths in
  (forall p e,
     In p paths -> pdf_reader w p = PdfError e ->
     In ("WARNING: Skipping '" ++ p ++ "' (" ++ e ++ ")")
        (stdout (snd (merge_with_index w file out paths s)))) /\
  (exists wr, fst (build_document w file paths s) = Returned wr) /\
  fst (build_catalog w paths s) = fst (build_catalog w good s) /\
  fst (build_document w file paths s) = fst (build_document w file good s) /\
  fst (merge_with_index w file out paths s) =
    fst (merge_with_index w file out good s) /\
  written (snd (merge_with_index w file out paths s)) =
    written (snd (merge_with_index w file out good s)).
Proof.
  intros Hb Hex good. pose proof (opened_nonempty w paths Hex) as Hne.
  rewrite !merge_with_index_spec, !build_document_spec, !build_catalog_spec.
  unfold good.
  rewrite !first_broken_filter, Hb, (scanned_all w paths Hb),
    (scanned_all w _ (first_broken_filter w paths)).
  rewrite !opened_filter, assembled_filter.
  destruct (opened w paths) as [|d docs] eqn:E; [congruence|].
  split; [|split; [|split; [|split; [|split]]]].
  - intros p e Hin He.
    destruct (cover_sys_stdout w file paths s) as [ws Hws].
    assert (In (skip_warning p e) (stdout (cover_sys w file paths s))) as H.
    { rewrite Hws. apply in_or_app. left. apply in_or_app. right.
      now apply skip_warnings_In. }
    destruct (open_wb_error w out) as [[? ?|? ?]|]; exact H.
  - eexists. reflexivity.
  - reflexivity.
  - reflexivity.
  - destruct (open_wb_error w out) as [[? ?|? ?]|]; reflexivity.
  - destruct (open_wb_error w out) as [[? ?|? ?]|];
      cbn [snd write_file truncate_file written];
      now rewrite !cover_sys_written.
Qed.

Lemma unreadable_files_are_skipped_witness :
  In "WARNING: Skipping 'in/bad.pdf' (EOF marker not found)"
     (stdout (snd (merge_with_index sample_world "main.py" "out.pdf"
                     ["in/a.pdf"; "in/b.pdf"; "in/bad.pdf"; "in/c.pdf"] sys0)))
  /\
  written (snd (merge_with_index sample_world "main.py" "out.pdf"
                  ["in/a.pdf"; "in/b.pdf"; "in/bad.pdf"; "in/c.pdf"] sys0)) =
  written (snd (merge_with_index sample_world "main.py" "out.pdf"
                  ["in/a.pdf"; "in/b.pdf"; "in/c.pdf"] sys0)).
Proof.
  pose proof (unreadable_files_are_skipped sample_world "main.py" "out.pdf"
                ["in/a.pdf"; "in/b.pdf"; "in/bad.pdf"; "in/c.pdf"] sys0
                eq_refl eq_refl) as H.
  split.
  - apply (proj1 H "in/bad.pdf" "EOF marker not found");
      [cbn; tauto | reflexivity].
  - exact (proj2 (proj2 (proj2 (proj2 (proj2 H))))).
Defined.

(** C8: a file that opens and whose pages cannot be listed is not skipped.
    In the directory [in] of [locked_world], [a.pdf] is readable, [bad.pdf]
    does not open and [locked.pdf] is encrypted: [bad.pdf] gets its
    warning, then the exception of [len(r.pages)] ends the run with status
    1, no warning for [locked.pdf] and no output, where the run over the
    readable file alone writes its container. *)
Theorem unlistable_file_ends_the_run :
  sorted (glob locked_world "in/*.pdf") =
    ["in/a.pdf"; "in/bad.pdf"; "in/locked.pdf"] /\
  readable locked_world "in/a.pdf" = true /\
  opens locked_world "in/bad.pdf" = false /\
  fst (run locked_world "main.py" ["main.py"; "out.pdf"; "in"]) = 1 /\
  stdout (snd (run locked_world "main.py" ["main.py"; "out.pdf"; "in"])) =
    [ "Merging 3 PDFs from 'in' " ++ arrow ++ " 'out.pdf'";
      "Adding cover page and beautiful Table of Contents...";
      "WARNING: Skipping 'in/bad.pdf' (EOF marker not found)" ] /\
  stderr (snd (run locked_world "main.py" ["main.py"; "out.pdf"; "in"])) =
    [ "PyPDF2.errors.FileNotDecryptedError: File has not been decrypted" ] /\
  written (snd (run locked_world "main.py" ["main.py"; "out.pdf"; "in"]))
    = [] /\
  filter (readable locked_world)
         ["in/a.pdf"; "in/bad.pdf"; "in/locked.pdf"] = ["in/a.pdf"] /\
  merge_with_index locked_world "main.py" "out.pdf" ["in/a.pdf"] sys0 =
    (Returned tt,
     write_file "out.pdf" (assembled locked_world "main.py" ["in/a.pdf"])
       (access (AExists "static/cover.png")
          (access (APdfReader "in/a.pdf") sys0))).
Proof. vm_compute. repeat split. Qed.

(** * Properties of [main] *)

Lemma insert_sorted_In (x y : string) (l : list string) :
  In y (insert_sorted x l) -> y = x \/ In y l.
Proof.
  induction l as [|z l IH]; cbn [insert_sorted].
  - intros [->|[]]. now left.
  - destruct (String.leb x z).
    + intros [->|H]; [now left | now right].
    + intros [->|H]; [right; now left|].
      destruct (IH H) as [->|H']; [now left | right; now right].
Qed.

Lemma sorted_In (y : string) (l : list string) :
  In y (sorted l) -> In y l.
Proof.
  induction l as [|x l IH]; cbn [sorted fold_right]; [tauto|].
  intros H. apply insert_sorted_In in H. destruct H as [->|H].
  - now left.
  - right. now apply IH.
Qed.

Lemma insert_sorted_nonempty (x : string) (l : list string) :
  insert_sorted x l <> [].
Proof. destruct l; cbn [insert_sorted]; [|destruct (String.leb x s)]; discriminate. Qed.

Lemma sorted_nil_iff (l : list string) : sorted l = [] <-> l = [].
Proof.
  split; [|intros ->; reflexivity].
  destruct l as [|x l]; [reflexivity|]. cbn [sorted fold_right]. intros H.
  now apply insert_sorted_nonempty in H.
Qed.

Lemma existsb_readable_sorted (w : World) (l : list string) :
  (forall p, In p l -> readable w p = false) ->
  existsb (readable w) (sorted l) = false.
Proof.
  intros H. destruct (existsb (readable w) (sorted l)) eqn:E; [|reflexivity].
  apply existsb_exists in E. destruct E as (p & Hin & Hr).
  apply sorted_In in Hin. rewrite (H p Hin) in Hr. discriminate.
Qed.

Lemma skip_warnings_shape (w : World) (paths : list string) (line : string) :
  In line (skip_warnings w paths) -> exists p e, line = skip_warning p e.
Proof.
  unfold skip_warnings. intros H. apply in_flat_map in H.
  destruct H as (p & _ & H).
  destruct (pdf_reader w p) as [r|e|exc msg]; try (destruct H; fail).
  destruct H as [<-|[]]. now exists p, e.
Qed.

Lemma not_opens_not_readable (w : World) (p : string) :
  opens w p = false -> readable w p = false.
Proof. unfold opens, readable. now destruct (pdf_reader w p). Qed.

Lemma first_broken_none_of_not_opens (w : World) (paths : list string) :
  (forall p, In p paths -> opens w p = false) -> first_broken w paths = None.
Proof.
  induction paths as [|p paths IH]; intros H; [reflexivity|].
  cbn [first_broken]. pose proof (H p (or_introl eq_refl)) as Hp.
  unfold opens in Hp.
  destruct (pdf_reader w p); try discriminate Hp.
  apply IH. intros q Hq. apply H. now right.
Qed.

(** X19: the process ends with status 1, and nothing is written, (1) when
    the number of arguments is wrong, (2) when INPUT_DIR is no directory,
    (3) when the glob of INPUT_DIR/*.pdf finds nothing, (4) when it finds
    some paths and none of them opens; in (3) the message "No PDFs found in
    ..." is printed, in (4) it is not and the run dies of the exception "No
    readable PDFs to merge.", and the two messages differ. *)
Theorem usage_and_empty_input_errors (w : World) (file : string) :
  (forall argv,
     List.length argv <> 3 ->
     fst (run w file argv) = 1 /\
     stdout (snd (run w file argv))
       = ["Usage: python main.py OUTPUT.pdf INPUT_DIR"] /\
     written (snd (run w file argv)) = [] /\
     truncated (snd (run w file argv)) = []) /\
  (forall prog out dir,
     isdir w dir = false ->
     fst (run w file [prog; out; dir]) = 1 /\
     stdout (snd (run w file [prog; out; dir]))
       = ["Error: '" ++ dir ++ "' is not a directory"] /\
     written (snd (run w file [prog; out; dir])) = [] /\
     truncated (snd (run w file [prog; out; dir])) = []) /\
  (forall prog out dir,
     isdir w dir = true ->
     glob w (path_join dir ["*.pdf"]) = [] ->
     fst (run w file [prog; out; dir]) = 1 /\
     stdout (snd (run w file [prog; out; dir]))
       = ["No PDFs found in " ++ dir] /\
     stderr (snd (run w file [prog; out; dir])) = [] /\
     written (snd (run w file [prog; out; dir])) = [] /\
     truncated (snd (run w file [prog; out; dir])) = []) /\
  (forall prog out dir,
     isdir w dir = true ->
     glob w (path_join dir ["*.pdf"]) <> [] ->
     (forall p, In p (glob w (path_join dir ["*.pdf"])) ->
                opens w p = false) ->
     fst (run w file [prog; out; dir]) = 1 /\
     stderr (snd (run w file [prog; out; dir]))
       = ["RuntimeError: No readable PDFs to merge."] /\
     ~ In ("No PDFs found in " ++ dir)
          (stdout (snd (run w file [prog; out; dir]))) /\
     written (snd (run w file [prog; out; dir])) = [] /\
     truncated (snd (run w file [prog; out; dir])) = []) /\
  (forall dir,
     "No PDFs found in " ++ dir <> "No readable PDFs to merge.").
Proof.
  split; [|split; [|split; [|split]]].
  - intros argv Hlen.
    destruct argv as [|a [|b [|c [|d argv]]]]; cbn in Hlen; try lia;
      repeat split.
  - intros prog out dir Hdir. unfold run, main. rewrite Hdir.
    repeat split.
  - intros prog out dir Hdir Hglob. unfold run, main.
    rewrite Hdir, Hglob. repeat split.
  - intros prog out dir Hdir Hglob Hnone. unfold run, main. rewrite Hdir.
    cbn [negb].
    destruct (sorted (glob w (path_join dir ["*.pdf"]))) as [|p ps] eqn:E.
    { apply (proj1 (sorted_nil_iff _)) in E. contradiction. }
    rewrite <- E, merge_with_index_spec.
    assert (forall q, In q (sorted (glob w (path_join dir ["*.pdf"]))) ->
                      opens w q = false) as Hs.
    { intros q Hq. apply Hnone. now apply sorted_In. }
    rewrite (first_broken_none_of_not_opens w _ Hs).
    rewrite (opened_empty w _
               (existsb_readable_sorted w _
                  (fun q Hq => not_opens_not_readable w q (Hnone q Hq)))).
    cbn [fst snd eprint stderr stdout written truncated catalog_sys print
         access sys0 app traceback_line is_empty].
    split; [reflexivity|]. split; [reflexivity|].
    split; [|split; reflexivity].
    intros [H|[H|H]]; try discriminate H.
    apply skip_warnings_shape in H. destruct H as (q & e & H).
    discriminate H.
  - intros dir H. discriminate H.
Qed.

Lemma usage_and_empty_input_errors_witness :
  (fst (run broken_world "main.py" ["main.py"; "out.pdf"; "empty"]) = 1 /\
   stdout (snd (run broken_world "main.py" ["main.py"; "out.pdf"; "empty"]))
     = ["No PDFs found in " ++ "empty"] /\
   stderr (snd (run broken_world "main.py" ["main.py"; "out.pdf"; "empty"]))
     = [] /\
   written (snd (run broken_world "main.py" ["main.py"; "out.pdf"; "empty"]))
     = [] /\
   truncated (snd (run broken_world "main.py" ["main.py"; "out.pdf"; "empty"]))
     = []) /\
  (fst (run broken_world "main.py" ["main.py"; "out.pdf"; "in"]) = 1 /\
   stderr (snd (run broken_world "main.py" ["main.py"; "out.pdf"; "in"]))
     = ["RuntimeError: No readable PDFs to merge."] /\
   ~ In ("No PDFs found in " ++ "in")
        (stdout (snd (run broken_world "main.py" ["main.py"; "out.pdf"; "in"])))
   /\
   written (snd (run broken_world "main.py" ["main.py"; "out.pdf"; "in"]))
     = [] /\
   truncated (snd (run broken_world "main.py" ["main.py"; "out.pdf"; "in"]))
     = []).
Proof.
  pose proof (usage_and_empty_input_errors broken_world "main.py")
    as (_ & _ & Hempty & Hbroken & _).
  split.
  - apply (Hempty "main.py" "out.pdf" "empty"); reflexivity.
  - apply (Hbroken "main.py" "out.pdf" "in");
      [reflexivity | discriminate |].
    intros p _. reflexivity.
Defined.

(** C9: the directory given as INPUT_DIR is read as a pattern.  In
    [bracket_world] the directory [[x]] exists and holds no file, and the
    directory [x] beside it holds [a.pdf]: [main] accepts [[x]] as a
    directory (line 249), the glob of [[x]/*.pdf] (line 253) answers with
    the file of [x], and the run ends with status 0 and writes the output,
    where a directory without PDF is to end it with "No PDFs found" and
    status 1. *)
Theorem input_dir_is_read_as_a_pattern :
  isdir bracket_world "[x]" = true /\
  listdir bracket_world "[x]" = [] /\
  path_join "[x]" ["*.pdf"] = "[x]/*.pdf" /\
  glob bracket_world "[x]/*.pdf" = ["x/a.pdf"] /\
  fst (run bracket_world "main.py" ["main.py"; "out.pdf"; "[x]"]) = 0 /\
  stdout (snd (run bracket_world "main.py" ["main.py"; "out.pdf"; "[x]"])) =
    [ "Merging 1 PDFs from '[x]' " ++ arrow ++ " 'out.pdf'";
      "Adding cover page and beautiful Table of Contents...";
      "Done. Your beautiful PDF is ready!" ] /\
  ~ In ("No PDFs found in " ++ "[x]")
       (stdout (snd (run bracket_world "main.py"
                       ["main.py"; "out.pdf"; "[x]"]))) /\
  written (snd (run bracket_world "main.py" ["main.py"; "out.pdf"; "[x]"])) =
    [("out.pdf", assembled bracket_world "main.py" ["x/a.pdf"])] /\
  List.length (pages (assembled bracket_world "main.py" ["x/a.pdf"])) = 3.
Proof.
  assert (run bracket_world "main.py" ["main.py"; "out.pdf"; "[x]"] =
          (0, mkSys
                [ "Merging 1 PDFs from '[x]' " ++ arrow ++ " 'out.pdf'";
                  "Adding cover page and beautiful Table of Contents...";
                  "Done. Your beautiful PDF is ready!" ]
                []
                [ AIsDir "[x]"; AGlob "[x]/*.pdf"; APdfReader "x/a.pdf";
                  AExists "static/cover.png" ]
                [("out.pdf", assembled bracket_world "main.py" ["x/a.pdf"])]
                [])) as E by (vm_compute; reflexivity).
  rewrite E. cbn [fst snd stdout written].
  split; [reflexivity|]. split; [reflexivity|]. split; [reflexivity|].
  split; [reflexivity|]. split; [reflexivity|]. split; [reflexivity|].
  split; [|split; [reflexivity | vm_compute; reflexivity]].
  intros [H|[H|[H|[]]]]; discriminate H.
Qed.

(** ** The path of the cover image *)

Lemma append_assoc (a b c : string) : (a ++ b) ++ c = a ++ (b ++ c).
Proof. induction a as [|x a IH]; cbn; [|rewrite IH]; reflexivity. Qed.

Lemma ends_with_slash_app_static (d : string) :
  ends_with_slash (d ++ "static") = false /\ is_empty (d ++ "static") = false.
Proof.
  induction d as [|c d [IH1 IH2]]; [split; reflexivity|].
  split; [|reflexivity]. cbn [append ends_with_slash].
  destruct (d ++ "static"); [discriminate IH2 | exact IH1].
Qed.

(** The path is the directory of the program followed by
    ["static/cover.png"], with a slash between the two when the directory
    needs one. *)
Lemma cover_path_closed_form (file : string) :
  cover_path file =
  (if is_empty (dirname file) || ends_with_slash (dirname file)
   then dirname file
   else dirname file ++ "/") ++ "static/cover.png".
Proof.
  unfold cover_path, path_join. cbn [fold_left].
  set (d := dirname file).
  assert (join2 d "static" =
          (if is_empty d || ends_with_slash d then d else d ++ "/") ++ "static")
    as ->.
  { unfold join2. cbn [starts_with_slash is_slash Ascii.eqb Bool.eqb].
    destruct (is_empty d || ends_with_slash d); [reflexivity|].
    now rewrite append_assoc. }
  set (d' := if is_empty d || ends_with_slash d then d else d ++ "/").
  unfold join2. cbn [starts_with_slash is_slash Ascii.eqb Bool.eqb].
  destruct (ends_with_slash_app_static d') as [-> ->]. cbn [orb].
  now rewrite append_assoc.
Qed.

Lemma catalog_sys_accesses (w : World) (file : string)
    (paths : list string) (s : Sys) :
  Forall (image_access_at (cover_path file)) (accesses s) ->
  Forall (image_access_at (cover_path file))
         (accesses (catalog_sys w paths s)).
Proof.
  intros H. unfold catalog_sys. cbn [accesses].
  apply Forall_app. split; [exact H|].
  apply Forall_forall. intros a Ha. apply in_map_iff in Ha.
  destruct Ha as (p & <- & _). exact I.
Qed.

Lemma merge_with_index_accesses (w : World) (file out : string)
    (paths : list string) (s : Sys) :
  Forall (image_access_at (cover_path file)) (accesses s) ->
  Forall (image_access_at (cover_path file))
         (accesses (snd (merge_with_index w file out paths s))).
Proof.
  intros H.
  assert (Forall (image_access_at (cover_path file))
                 (accesses (cover_sys w file paths s))) as Hcov.
  { unfold cover_sys.
    destruct (make_cover_pdf_effects w (cover_path file) (catalog_sys w paths s))
      as (_ & _ & _ & touched & -> & Ht).
    apply Forall_app. split; [now apply catalog_sys_accesses|].
    eapply Forall_impl; [|exact Ht]. cbv beta.
    intros a [-> | [-> | ->]]; reflexivity. }
  rewrite merge_with_index_spec.
  destruct (first_broken w paths) as [[exc msg]|];
    [now apply catalog_sys_accesses|].
  destruct (opened w paths); [now apply catalog_sys_accesses|].
  destruct (open_wb_error w out) as [[? ?|? ?]|]; exact Hcov.
Qed.

(** The renderer of the cover asks whether the image exists, and opens it
    when it does. *)
Lemma make_cover_pdf_lookup (w : World) (p : string) (s : Sys) :
  In (AExists p) (accesses (snd (make_cover_pdf w p s))) /\
  (path_exists w p = true ->
   In (AImageOpen p) (accesses (snd (make_cover_pdf w p s)))).
Proof.
  unfold make_cover_pdf, draw_cover_image. cbn [letter].
  destruct (path_exists w p);
    [destruct (image_open w p) as [iw ih|e];
     [destruct ((iw =? 0)%nat || (ih =? 0)%nat);
      [|destruct (draw_image_error w p)]|]|];
    cbn [snd accesses access print];
    (split; [|intros E; try discriminate E]);
    rewrite ?in_app_iff; cbn [In]; tauto.
Qed.

(** A run of [merge_with_index] that gets past the first loop with a
    reader looks the cover image up. *)
Lemma merge_with_index_lookup (w : World) (file out : string)
    (paths : list string) (s : Sys) :
  first_broken w paths = None ->
  opened w paths <> [] ->
  In (AExists (cover_path file))
     (accesses (snd (merge_with_index w file out paths s))) /\
  (path_exists w (cover_path file) = true ->
   In (AImageOpen (cover_path file))
      (accesses (snd (merge_with_index w file out paths s)))).
Proof.
  intros Hb Hne. rewrite merge_with_index_spec, Hb.
  destruct (opened w paths); [congruence|].
  destruct (open_wb_error w out) as [[? ?|? ?]|];
    cbn [snd write_file truncate_file accesses];
    apply make_cover_pdf_lookup.
Qed.

(** What a run of [merge_with_index] writes: nothing, or the container at
    the output path once the first loop is over with a reader. *)
Lemma merge_with_index_written (w : World) (file out : string)
    (paths : list string) (s : Sys) :
  written (snd (merge_with_index w file out paths s)) = written s \/
  (written (snd (merge_with_index w file out paths s)) =
     (written s ++ [(out, assembled w file paths)])%list /\
   first_broken w paths = None /\ opened w paths <> []).
Proof.
  rewrite merge_with_index_spec.
  destruct (first_broken w paths) as [[exc msg]|]; [now left|].
  destruct (opened w paths); [now left|].
  destruct (open_wb_error w out) as [[? ?|? ?]|];
    cbn [snd write_file truncate_file written];
    rewrite cover_sys_written; [now left | now left | right].
  split; [reflexivity | split; [reflexivity | discriminate]].
Qed.

(** The first page of a container is its cover. *)
Lemma assembled_first_page (w : World) (file : string)
    (paths : list string) :
  match cover_image w (cover_path file) with
  | Absent | Unusable _ =>
      nth_error (pages (assembled w file paths)) 0 = Some fallback_page
  | Usable _ _ =>
      exists x y new_w new_h,
        nth_error (pages (assembled w file paths)) 0 =
        Some (CanvasPage letter
                [DrawImage (cover_path file) x y new_w new_h])
  end.
Proof.
  unfold assembled, cover_of. cbn [pages].
  pose proof (make_cover_pdf_cases w (cover_path file) sys0) as H.
  destruct (cover_image w (cover_path file)).
  - destruct H as [-> _]. reflexivity.
  - destruct H as [-> _]. reflexivity.
  - destruct H as [(x & y & nw & nh & ->) _]. now exists x, y, nw, nh.
Qed.

(** What [main] writes: nothing, or one container, and then the loop of
    [merge_with_index] is over with a reader. *)
Lemma run_written (w : World) (file : string) (argv : list string) :
  written (snd (run w file argv)) = [] \/
  exists prog out dir,
    argv = [prog; out; dir] /\ isdir w dir = true /\
    first_broken w (found w dir) = None /\
    opened w (found w dir) <> [] /\
    written (snd (run w file argv)) =
      [(out, assembled w file (found w dir))].
Proof.
  unfold run, main.
  destruct argv as [|a [|out [|dir [|d argv]]]]; try (now left).
  destruct (isdir w dir) eqn:Hdir; cbn [negb]; [|now left].
  fold (found w dir).
  destruct (found w dir) as [|p ps] eqn:E; [now left|].
  rewrite <- E.
  match goal with
  | |- context [merge_with_index w file out ?l ?s0] =>
      pose proof (merge_with_index_written w file out l s0) as H;
      destruct (merge_with_index w file out l s0) as [[u|n|exc msg] s1]
  end; cbn [snd print eprint written access sys0] in *;
    (destruct H as [-> | (-> & Hb & Hne)]; [now left|]);
    right; exists a, out, dir; repeat split; assumption.
Qed.

(** The accesses of [main] once the directory is listed are those of
    [merge_with_index]. *)
Lemma run_accesses (w : World) (file prog out dir : string) :
  isdir w dir = true ->
  found w dir <> [] ->
  accesses (snd (run w file [prog; out; dir])) =
  accesses (snd (merge_with_index w file out (found w dir)
                   (progress_sys w out dir))).
Proof.
  intros Hdir Hne. unfold run, main. rewrite Hdir. cbn [negb].
  fold (found w dir).
  destruct (found w dir) as [|p ps] eqn:E; [congruence|].
  rewrite <- E. unfold progress_sys. rewrite E at 2. rewrite <- E.
  destruct (merge_with_index w file out (found w dir) _)
    as [[u|n|exc msg] s1]; reflexivity.
Qed.

Lemma opened_found_nonempty (w : World) (paths : list string) :
  opened w paths <> [] -> paths <> [].
Proof. intros H ->. now apply H. Qed.

(** C10: whatever the arguments, the only path at which the run asks
    whether a file exists, opens an image or draws one is the one made of
    the directory of the program and ["static/cover.png"]; the arguments do
    not enter it.  Every run that gets past the first loop with a reader
    asks whether a file exists at that path; every run that writes a
    container has asked, has opened the image when the path exists, and
    the container starts with the cover rendered from that path: the
    image drawn from that path when it is usable, the fallback cover
    otherwise. *)
Theorem cover_image_path_is_fixed (w : World) (file : string)
    (argv : list string) :
  Forall (image_access_at (cover_path file))
         (accesses (snd (run w file argv))) /\
  (forall out wr,
     In (out, wr) (written (snd (run w file argv))) ->
     exists rest,
       pages wr =
       (fst (make_cover_pdf w (cover_path file) sys0) ++ rest)%list) /\
  cover_path file =
  (if is_empty (dirname file) || ends_with_slash (dirname file)
   then dirname file
   else dirname file ++ "/") ++ "static/cover.png" /\
  (forall prog out dir,
     argv = [prog; out; dir] ->
     isdir w dir = true ->
     first_broken w (found w dir) = None ->
     existsb (readable w) (found w dir) = true ->
     In (AExists (cover_path file)) (accesses (snd (run w file argv))) /\
     (path_exists w (cover_path file) = true ->
      In (AImageOpen (cover_path file))
         (accesses (snd (run w file argv))))) /\
  (forall out wr,
     In (out, wr) (written (snd (run w file argv))) ->
     In (AExists (cover_path file)) (accesses (snd (run w file argv))) /\
     (path_exists w (cover_path file) = true ->
      In (AImageOpen (cover_path file))
         (accesses (snd (run w file argv)))) /\
     match cover_image w (cover_path file) with
     | Absent | Unusable _ => nth_error (pages wr) 0 = Some fallback_page
     | Usable _ _ =>
         exists x y new_w new_h,
           nth_error (pages wr) 0 =
           Some (CanvasPage letter
                   [DrawImage (cover_path file) x y new_w new_h])
     end).
Proof.
  split; [|split; [|split; [apply cover_path_closed_form|split]]].
  - unfold run, main.
    destruct argv as [|a [|out [|dir [|d argv]]]];
      try (repeat constructor).
    destruct (isdir w dir); cbn [negb]; [|repeat constructor].
    destruct (sorted (glob w (path_join dir ["*.pdf"]))) as [|p ps];
      [repeat constructor|].
    match goal with
    | |- context [merge_with_index w file out ?l ?s0] =>
        pose proof (merge_with_index_accesses w file out l s0) as H;
        destruct (merge_with_index w file out l s0) as [[u|n|exc msg] s1]
    end; cbn [snd print eprint accesses] in *; apply H; repeat constructor.
  - intros out0 wr Hin.
    destruct (run_written w file argv) as [E|(a & out & dir & _ & _ & _ & _ & E)];
      rewrite E in Hin; [destruct Hin|].
    destruct Hin as [[= <- <-]|[]]. unfold assembled, cover_of. cbn [pages].
    eexists. reflexivity.
  - intros prog out dir -> Hdir Hb Hex.
    pose proof (opened_nonempty w _ Hex) as Hne.
    rewrite (run_accesses w file prog out dir Hdir
               (opened_found_nonempty w _ Hne)).
    now apply merge_with_index_lookup.
  - intros out0 wr Hin.
    destruct (run_written w file argv)
      as [E|(a & out & dir & -> & Hdir & Hb & Hne & E)];
      rewrite E in Hin; [destruct Hin|].
    destruct Hin as [[= <- <-]|[]].
    rewrite (run_accesses w file a out dir Hdir
               (opened_found_nonempty w _ Hne)).
    destruct (merge_with_index_lookup w file out (found w dir)
                (progress_sys w out dir) Hb Hne) as [H1 H2].
    split; [exact H1|]. split; [exact H2|].
    apply assembled_first_page.
Qed.

Lemma cover_image_path_is_fixed_witness :
  (exists rest,
     pages (assembled sample_world "/opt/fb/main.py"
              (sorted (glob sample_world "in/*.pdf"))) =
     (fst (make_cover_pdf sample_world (cover_path "/opt/fb/main.py") sys0)
      ++ rest)%list) /\
  cover_path "/opt/fb/main.py" = "/opt/fb/static/cover.png" /\
  In (AExists "/opt/fb/static/cover.png")
     (accesses (snd (run sample_world "/opt/fb/main.py"
                       ["main.py"; "out.pdf"; "in"]))).
Proof.
  pose proof (cover_image_path_is_fixed sample_world "/opt/fb/main.py"
                ["main.py"; "out.pdf"; "in"]) as (_ & H & _ & Hl & _).
  split; [|split; [reflexivity|]].
  - apply (H "out.pdf"). cbn. left. reflexivity.
  - apply (Hl "main.py" "out.pdf" "in"); reflexivity.
Defined.

(** ** The scenario of the specification *)

(** [b.pdf] (2 pages), [a.pdf] (1 page), [c.pdf] (5 pages), a file that
    does not open and no cover image: the catalog is in the order a, b, c,
    the start pages are 1, 2, 4, the output has 10 pages and the bookmarks
    of the documents are at 2, 3 and 5. *)
Example specification_scenario :
  let r := run sample_world "/opt/fb/main.py" ["main.py"; "out.pdf"; "in"] in
  fst r = 0 /\
  stdout (snd r) =
    [ "Merging 4 PDFs from 'in' " ++ arrow ++ " 'out.pdf'";
      "Adding cover page and beautiful Table of Contents...";
      "WARNING: Skipping 'in/bad.pdf' (EOF marker not found)";
      "Done. Your beautiful PDF is ready!" ] /\
  entries (fst (build_catalog sample_world
                  (sorted (glob sample_world "in/*.pdf")) sys0)) =
    [("a.pdf", 1); ("b.pdf", 2); ("c.pdf", 4)] /\
  map (fun f => (fst f, List.length (pages (snd f)), outline (snd f)))
      (written (snd r)) =
    [("out.pdf", 10,
      [("Cover", 0); ("Table of Contents", 1); ("a", 2); ("b", 3); ("c", 5)])].
Proof. vm_compute. repeat split. Qed.

(** * Further properties of the TOC renderer *)

Lemma toc_draw_row_code (w : World) (idx : nat) (e : string * nat)
    (st : TocState) :
  code (cv (toc_draw_row w idx e st)) =
  (code (cv st) ++ row_ops w idx e (y st))%list.
Proof.
  destruct e as [name start_page]. unfold toc_draw_row, row_ops.
  cbn [fst snd].
  destruct (idx mod 2 =? 0)%nat;
    destruct (margin + stringWidth w (display_name name) + 10000
              <? right_margin - 40000)%Z;
    cbn [cv draw code]; rewrite <- ?app_assoc; reflexivity.
Qed.

Lemma all_ops_entry (w : World) (idx : nat) (e : string * nat)
    (st : TocState) :
  all_ops (toc_entry w idx e st) = (all_ops st ++ entry_ops w idx e st)%list.
Proof.
  unfold all_ops, toc_entry, entry_ops.
  destruct (y st <? min_row_y)%Z.
  - rewrite toc_draw_row_code.
    destruct (toc_draw_row_spec w idx e (toc_new_page st)) as [-> _].
    destruct (toc_new_page_spec st) as (-> & _ & _ & -> & _).
    unfold document_ops. rewrite flat_map_app. cbn [flat_map page_ops].
    rewrite app_nil_r, <- !app_assoc. reflexivity.
  - rewrite toc_draw_row_code.
    destruct (toc_draw_row_spec w idx e st) as [-> _].
    now rewrite <- app_assoc.
Qed.

Lemma all_ops_entries (w : World) (es : list (string * nat)) :
  forall idx st,
    all_ops (toc_entries w idx es st) =
    (all_ops st ++ entries_ops w idx es st)%list.
Proof.
  induction es as [|e es IH]; intros idx st; cbn [toc_entries entries_ops].
  - now rewrite app_nil_r.
  - now rewrite IH, all_ops_entry, <- app_assoc.
Qed.

(** The operations of the whole TOC: the header of the first page, what
    each turn of the loop draws, and the footer of the last page. *)
Lemma make_toc_pdf_ops (w : World) (entries : list (string * nat)) :
  document_ops (make_toc_pdf w entries) =
  (code (cv toc_start) ++ entries_ops w 0 entries toc_start
   ++ footer (page_num (toc_entries w 0 entries toc_start)))%list.
Proof.
  rewrite make_toc_pdf_pages. unfold document_ops.
  rewrite flat_map_app. cbn [flat_map page_ops]. rewrite app_nil_r.
  rewrite app_assoc. fold (document_ops (doc_pages (cv (toc_entries w 0 entries toc_start)))).
  fold (all_ops (toc_entries w 0 entries toc_start)).
  rewrite all_ops_entries. unfold all_ops at 1. cbn [toc_start cv doc_pages document_ops flat_map app].
  now rewrite <- !app_assoc.
Qed.

(** ** What one row draws *)

Ltac row_cases w idx e :=
  unfold row_ops;
  destruct (idx mod 2 =? 0)%nat;
  destruct (Z.ltb_spec (margin + stringWidth w (display_name (fst e)) + 10000)
                       (right_margin - 40000));
  cbn [app flat_map printed_name printed_number row_marks].

Lemma row_ops_numbers (w : World) (idx : nat) (e : string * nat) (y : Z) :
  flat_map printed_number (row_ops w idx e y) = [str_of_nat (snd e)].
Proof. row_cases w idx e; reflexivity. Qed.

Lemma row_ops_names (w : World) (idx : nat) (e : string * nat) (y : Z) :
  (y < page_h - margin)%Z ->
  flat_map printed_name (row_ops w idx e y) = [display_name (fst e)].
Proof.
  intros Hy. apply Z.ltb_lt in Hy. row_cases w idx e; rewrite Hy; reflexivity.
Qed.

Lemma row_ops_marks (w : World) (idx : nat) (e : string * nat) (y : Z) :
  flat_map row_marks (row_ops w idx e y) =
  if (idx mod 2 =? 0)%nat then [true; false] else [false].
Proof. row_cases w idx e; reflexivity. Qed.

Lemma row_ops_lines (w : World) (idx : nat) (e : string * nat) (y : Z) :
  Forall line_ok (row_ops w idx e y).
Proof.
  row_cases w idx e; repeat (apply Forall_cons; [cbn; auto|]);
    apply Forall_nil.
Qed.

Lemma row_ops_band (w : World) (idx : nat) (e : string * nat) (y : Z) :
  (min_row_y <= y <= 687600)%Z -> Forall row_in_band (row_ops w idx e y).
Proof.
  intros Hy. layout_constants.
  row_cases w idx e;
    repeat (apply Forall_cons; [cbn; layout_constants; try lia; auto|]);
    apply Forall_nil.
Qed.

(** ** What the loop draws *)

Lemma entries_ops_numbers (w : World) (es : list (string * nat)) :
  forall idx st,
    flat_map printed_number (entries_ops w idx es st) =
    map (fun e => str_of_nat (snd e)) es.
Proof.
  induction es as [|e es IH]; intros idx st; [reflexivity|].
  cbn [entries_ops map]. rewrite flat_map_app, IH. unfold entry_ops.
  destruct (y st <? min_row_y)%Z;
    rewrite ?flat_map_app, row_ops_numbers; reflexivity.
Qed.

Lemma entries_ops_marks (w : World) (es : list (string * nat)) :
  forall idx st,
    flat_map row_marks (entries_ops w idx es st) =
    flat_map (fun i => if (i mod 2 =? 0)%nat then [true; false] else [false])
             (seq idx (List.length es)).
Proof.
  induction es as [|e es IH]; intros idx st; [reflexivity|].
  cbn [entries_ops List.length seq flat_map].
  rewrite flat_map_app, IH. f_equal. unfold entry_ops.
  destruct (y st <? min_row_y)%Z;
    rewrite ?flat_map_app, row_ops_marks; reflexivity.
Qed.

Lemma entries_ops_lines (w : World) (es : list (string * nat)) :
  forall idx st, Forall line_ok (entries_ops w idx es st).
Proof.
  induction es as [|e es IH]; intros idx st; [constructor|].
  cbn [entries_ops]. apply Forall_app. split; [|apply IH].
  unfold entry_ops. destruct (y st <? min_row_y)%Z; [|apply row_ops_lines].
  apply Forall_app. split; [repeat constructor|].
  apply Forall_app. split; [|apply row_ops_lines].
  repeat (apply Forall_cons; [cbn; auto|]); [|apply Forall_nil].
  split; reflexivity.
Qed.

Lemma toc_layout_y_bounds (k : nat) (st : TocState) :
  toc_layout k st -> (y st <= 669600)%Z.
Proof.
  intros (r & _ & _ & Hy). revert Hy.
  destruct (doc_pages (cv st)); intros; lia.
Qed.

Lemma entries_ops_names (w : World) (es : list (string * nat)) :
  forall idx st k,
    toc_layout k st ->
    flat_map printed_name (entries_ops w idx es st) =
    map (fun e => display_name (fst e)) es.
Proof.
  induction es as [|e es IH]; intros idx st k Hl; [reflexivity|].
  cbn [entries_ops map].
  rewrite flat_map_app, (IH _ _ (S k) (toc_entry_layout w idx e st k Hl)).
  unfold entry_ops. pose proof (toc_layout_y_bounds k st Hl).
  destruct (y st <? min_row_y)%Z.
  - rewrite !flat_map_app, row_ops_names by (layout_constants; lia).
    reflexivity.
  - rewrite row_ops_names by (layout_constants; lia). reflexivity.
Qed.

Lemma entries_ops_band (w : World) (es : list (string * nat)) :
  forall idx st k,
    toc_layout k st -> Forall row_in_band (entries_ops w idx es st).
Proof.
  induction es as [|e es IH]; intros idx st k Hl; [constructor|].
  cbn [entries_ops]. apply Forall_app.
  split; [|apply (IH _ _ (S k)); now apply toc_entry_layout].
  unfold entry_ops. pose proof (toc_layout_y_bounds k st Hl).
  destruct (Z.ltb_spec (y st) min_row_y).
  - apply Forall_app. split; [repeat constructor|].
    apply Forall_app. split; [repeat constructor|].
    apply row_ops_band. layout_constants. lia.
  - apply row_ops_band. lia.
Qed.

(** ** Page numbers *)

Lemma toc_start_numbered : toc_numbered toc_start.
Proof.
  split; [reflexivity|]. split; [reflexivity|].
  intros k pg H. destruct k; discriminate.
Qed.

Lemma toc_entry_numbered (w : World) (idx : nat) (e : string * nat)
    (st : TocState) :
  toc_numbered st -> toc_numbered (toc_entry w idx e st).
Proof.
  intros (Hn & Hs & Hp). unfold toc_entry, toc_numbered.
  destruct (y st <? min_row_y)%Z.
  - destruct (toc_draw_row_spec w idx e (toc_new_page st))
      as (-> & -> & _ & -> & _).
    destruct (toc_new_page_spec st) as (-> & -> & _ & _ & ->).
    rewrite length_app. cbn [List.length].
    split; [lia|]. split; [assumption|].
    intros k pg H.
    destruct (Nat.lt_ge_cases k (List.length (doc_pages (cv st))))
      as [Hlt|Hge].
    + rewrite nth_error_app1 in H by assumption. now apply Hp.
    + rewrite nth_error_app2 in H by assumption.
      destruct (k - List.length (doc_pages (cv st))) as [|[|j]] eqn:E;
        cbn [nth_error] in H; try discriminate.
      injection H as <-. exists (code (cv st)).
      rewrite Hs, Hn. repeat f_equal. lia.
  - destruct (toc_draw_row_spec w idx e st) as (-> & -> & _ & -> & _).
    auto.
Qed.

Lemma toc_entries_numbered (w : World) (es : list (string * nat)) :
  forall idx st, toc_numbered st -> toc_numbered (toc_entries w idx es st).
Proof.
  induction es as [|e es IH]; intros idx st H; cbn [toc_entries];
    [assumption|].
  apply IH. now apply toc_entry_numbered.
Qed.

(** X1: the TOC has one page, plus one for every 26 entries: 25 rows on
    the first page, 26 on every later one. *)
Theorem toc_page_count (w : World) (entries : list (string * nat)) :
  List.length (make_toc_pdf w entries) = 1 + List.length entries / 26.
Proof. apply make_toc_pdf_length. Qed.

(** X2: every page of the TOC is a letter page that ends with the footer
    of its own number, counted from 1, the last page included. *)
Theorem toc_pages_are_numbered (w : World) (entries : list (string * nat))
    (k : nat) (pg : Page) :
  nth_error (make_toc_pdf w entries) k = Some pg ->
  exists ops,
    pg = CanvasPage (612000, 792000)%Z
           (ops ++ [ SetFont "Helvetica" 9;
                     SetFillColor "#95A5A6";
                     DrawCentredString 306000 36000
                       ("- " ++ str_of_nat (S k) ++ " -") ])%list.
Proof.
  rewrite make_toc_pdf_pages. cbv zeta.
  destruct (toc_entries_numbered w entries 0 toc_start toc_start_numbered)
    as (Hn & Hs & Hp).
  set (st := toc_entries w 0 entries toc_start) in *. intros H.
  destruct (Nat.lt_ge_cases k (List.length (doc_pages (cv st)))) as [Hlt|Hge].
  - rewrite nth_error_app1 in H by assumption. now apply Hp.
  - rewrite nth_error_app2 in H by assumption.
    destruct (k - List.length (doc_pages (cv st))) as [|[|j]] eqn:E;
      cbn [nth_error] in H; try discriminate.
    injection H as <-. exists (code (cv st)).
    rewrite Hs, Hn. replace (S (List.length (doc_pages (cv st)))) with (S k) by lia.
    reflexivity.
Qed.

Lemma toc_pages_are_numbered_witness :
  exists ops,
    nth_error (make_toc_pdf sample_world (repeat ("x.pdf", 1) 26)) 1 =
    Some (CanvasPage (612000, 792000)%Z
            (ops ++ [ SetFont "Helvetica" 9;
                      SetFillColor "#95A5A6";
                      DrawCentredString 306000 36000 "- 2 -" ])%list).
Proof.
  pose (pg := nth 1 (make_toc_pdf sample_world (repeat ("x.pdf", 1) 26))
                  (SourcePage "" 0)).
  assert (nth_error (make_toc_pdf sample_world (repeat ("x.pdf", 1) 26)) 1
          = Some pg) as E by (vm_compute; reflexivity).
  destruct (toc_pages_are_numbered sample_world (repeat ("x.pdf", 1) 26) 1 pg E)
    as [ops Hops].
  exists ops. rewrite E, Hops. reflexivity.
Defined.

(** X3: every row of the TOC (its page number, and its highlight when it
    has one) is drawn between the height of the page break, 0.5 inch above
    the bottom margin, and the first row of a continuation page. *)
Theorem toc_rows_stay_in_band (w : World) (entries : list (string * nat)) :
  Forall row_in_band (document_ops (make_toc_pdf w entries)).
Proof.
  rewrite make_toc_pdf_ops. apply Forall_app. split; [repeat constructor|].
  apply Forall_app. split; [|repeat constructor].
  apply (entries_ops_band w entries 0 toc_start 0 toc_start_layout).
Qed.

(** X4: every line drawn in the TOC (the rules under the headers and the
    dotted leaders) is horizontal and has a positive length: a leader that
    would not is left out. *)
Theorem toc_lines_have_positive_length (w : World)
    (entries : list (string * nat)) :
  Forall line_ok (document_ops (make_toc_pdf w entries)).
Proof.
  rewrite make_toc_pdf_ops. apply Forall_app. split.
  - repeat (apply Forall_cons; [cbn; auto|]); [|apply Forall_nil].
    split; reflexivity.
  - apply Forall_app. split; [apply entries_ops_lines | repeat constructor].
Qed.

(** X5: the TOC prints every entry once and in order, whatever the page
    breaks: the display names of the entries and their start pages. *)
Theorem toc_prints_every_entry (w : World) (entries : list (string * nat)) :
  flat_map printed_name (document_ops (make_toc_pdf w entries)) =
    map (fun e => display_name (fst e)) entries /\
  flat_map printed_number (document_ops (make_toc_pdf w entries)) =
    map (fun e => str_of_nat (snd e)) entries.
Proof.
  rewrite make_toc_pdf_ops, !flat_map_app.
  rewrite (entries_ops_names w entries 0 toc_start 0 toc_start_layout).
  rewrite entries_ops_numbers. cbn. rewrite !app_nil_r. split; reflexivity.
Qed.

(** X6: the rows of even index, and only they, are preceded by a
    highlight rectangle. *)
Theorem toc_highlights_even_rows (w : World) (entries : list (string * nat)) :
  flat_map row_marks (document_ops (make_toc_pdf w entries)) =
  flat_map (fun i => if (i mod 2 =? 0)%nat then [true; false] else [false])
           (seq 0 (List.length entries)).
Proof.
  rewrite make_toc_pdf_ops, !flat_map_app, entries_ops_marks.
  cbn. now rewrite app_nil_r.
Qed.

(** * Further properties of the assembler *)

Lemma opened_names (w : World) (paths : list string) :
  map fst (opened w paths) = map basename (filter (readable w) paths).
Proof.
  induction paths as [|p paths IH]; [reflexivity|].
  rewrite opened_cons, map_app, IH. cbn [filter]. unfold readable at 2.
  destruct (pdf_reader w p); reflexivity.
Qed.

Lemma start_pages_names (docs : list (string * list Page)) :
  forall cursor, map fst (start_pages cursor docs) = map fst docs.
Proof.
  induction docs as [|[n r] docs IH]; intros cursor; [reflexivity|].
  cbn [start_pages map fst]. now rewrite IH.
Qed.

Lemma bookmarks_titles (docs : list (string * list Page)) :
  forall index,
    map fst (bookmarks index docs) = map (fun d => display_name (fst d)) docs.
Proof.
  induction docs as [|[n r] docs IH]; intros index; [reflexivity|].
  cbn [bookmarks map fst]. now rewrite IH.
Qed.

Lemma returned_is_assembled (w : World) (file : string)
    (paths : list string) (s : Sys) (wr : PdfWriter) :
  fst (build_document w file paths s) = Returned wr ->
  wr = assembled w file paths.
Proof.
  intros H. now apply build_document_returned in H.
Qed.

Lemma returned_scanned (w : World) (file : string)
    (paths : list string) (s : Sys) (wr : PdfWriter) :
  fst (build_document w file paths s) = Returned wr ->
  scanned w paths = paths.
Proof.
  intros H. apply build_document_returned in H. now apply scanned_all.
Qed.

(** X7: the names of the TOC entries are the base names of the paths that
    open, in order, and the titles of the bookmarks are "Cover", "Table of
    Contents" and the display names of those base names. *)
Theorem names_come_from_base_names (w : World) (file : string)
    (paths : list string) (s : Sys) (wr : PdfWriter) :
  fst (build_document w file paths s) = Returned wr ->
  map fst (entries (fst (build_catalog w paths s))) =
    map basename (filter (readable w) paths) /\
  map fst (outline wr) =
    "Cover" :: "Table of Contents"
    :: map (fun p => display_name (basename p)) (filter (readable w) paths).
Proof.
  intros H. pose proof (returned_scanned w file paths s wr H) as Hs.
  apply returned_is_assembled in H. subst wr.
  rewrite build_catalog_spec, Hs. cbn [fst entries].
  rewrite start_pages_names, opened_names. split; [reflexivity|].
  unfold assembled. cbn [outline map fst].
  rewrite bookmarks_titles, <- (map_map fst display_name), opened_names.
  now rewrite map_map.
Qed.

Lemma names_come_from_base_names_witness :
  map fst (outline (assembled sample_world "main.py"
                      ["in/a.pdf"; "in/bad.pdf"; "in/b.pdf"])) =
  "Cover" :: "Table of Contents"
  :: map (fun p => display_name (basename p))
         (filter (readable sample_world)
                 ["in/a.pdf"; "in/bad.pdf"; "in/b.pdf"]).
Proof.
  apply (names_come_from_base_names sample_world "main.py"
           ["in/a.pdf"; "in/bad.pdf"; "in/b.pdf"] sys0).
  vm_compute. reflexivity.
Defined.

Lemma concat_nth_first (docs : list (string * list Page)) :
  forall i name first rest,
    nth_error docs i = Some (name, first :: rest) ->
    nth_error (List.concat (map snd docs)) (total_pages (firstn i docs)) =
    Some first.
Proof.
  induction docs as [|[n r] docs IH]; intros i name first rest H.
  - destruct i; discriminate.
  - destruct i as [|i]; cbn [nth_error] in H.
    + injection H as -> ->. reflexivity.
    + change (firstn (S i) ((n, r) :: docs)) with ((n, r) :: firstn i docs).
      rewrite total_pages_cons. cbn [map snd List.concat].
      rewrite nth_error_app2 by lia.
      replace (List.length r + total_pages (firstn i docs) - List.length r)
        with (total_pages (firstn i docs)) by lia.
      now apply (IH i name first rest).
Qed.

(** X8: every bookmark of a document that has a page points at the first
    page of that document in the container; the "Cover" bookmark points at
    the cover page and the "Table of Contents" bookmark at the first page of
    the TOC. *)
Theorem bookmarks_point_at_first_pages (w : World) (file : string)
    (paths : list string) (s : Sys) (wr : PdfWriter) :
  fst (build_document w file paths s) = Returned wr ->
  nth_error (pages wr) 0 = nth_error (cover_of w file) 0 /\
  nth_error (pages wr) (List.length (cover_of w file)) =
    nth_error (toc_of w paths) 0 /\
  forall i name first rest,
    nth_error (opened w paths) i = Some (name, first :: rest) ->
    exists target,
      nth_error (outline wr) (2 + i) = Some (display_name name, target) /\
      nth_error (pages wr) target = Some first.
Proof.
  intros H. apply returned_is_assembled in H. subst wr.
  pose proof (cover_of_length w file) as Hc.
  pose proof (toc_of_length_pos w paths) as Ht.
  unfold assembled. cbn [pages outline]. split; [|split].
  - rewrite nth_error_app1 by lia. reflexivity.
  - rewrite nth_error_app2, Nat.sub_diag by lia.
    rewrite nth_error_app1 by lia. reflexivity.
  - intros i name first rest Hi. eexists. split.
    + cbn [Nat.add nth_error]. now apply (bookmarks_nth _ _ _ _ _ Hi).
    + rewrite nth_error_app2 by lia. rewrite nth_error_app2 by lia.
      replace (List.length (cover_of w file) + List.length (toc_of w paths)
               + total_pages (firstn i (opened w paths))
               - List.length (cover_of w file)
               - List.length (toc_of w paths))
        with (total_pages (firstn i (opened w paths))) by lia.
      now apply (concat_nth_first _ _ name first rest).
Qed.

Lemma bookmarks_point_at_first_pages_witness :
  exists target,
    nth_error (outline (assembled sample_world "main.py"
                          ["in/a.pdf"; "in/b.pdf"; "in/c.pdf"])) (2 + 2) =
      Some (display_name "c.pdf", target) /\
    nth_error (pages (assembled sample_world "main.py"
                        ["in/a.pdf"; "in/b.pdf"; "in/c.pdf"])) target =
      Some (SourcePage "in/c.pdf" 0).
Proof.
  assert (fst (build_document sample_world "main.py"
                 ["in/a.pdf"; "in/b.pdf"; "in/c.pdf"] sys0) =
          Returned (assembled sample_world "main.py"
                      ["in/a.pdf"; "in/b.pdf"; "in/c.pdf"])) as H
    by (vm_compute; reflexivity).
  apply (proj2 (proj2 (bookmarks_point_at_first_pages _ _ _ _ _ H))
           2 "c.pdf" (SourcePage "in/c.pdf" 0)
           (map (SourcePage "in/c.pdf") (seq 1 4))).
  vm_compute. reflexivity.
Defined.

(** X9: the page number the TOC prints for a document and the index of
    its bookmark differ by the number of TOC pages: the bookmark of the
    entry printed with start page [p] is at 0-based index [p] plus the page
    count of the TOC (the printed numbers count neither the cover nor the
    TOC). *)
Theorem printed_page_and_bookmark_index (w : World) (file : string)
    (paths : list string) (s : Sys) (wr : PdfWriter) (i : nat)
    (name : string) (start_page : nat) :
  fst (build_document w file paths s) = Returned wr ->
  nth_error (entries (fst (build_catalog w paths s))) i
    = Some (name, start_page) ->
  nth_error (outline wr) (2 + i) =
  Some (display_name name, start_page + List.length (toc_of w paths)).
Proof.
  intros H Hi. pose proof (returned_scanned w file paths s wr H) as Hs.
  apply returned_is_assembled in H. subst wr.
  rewrite build_catalog_spec, Hs in Hi. cbn [fst entries] in Hi.
  destruct (start_pages_nth _ _ _ _ _ Hi) as [-> [r Hr]].
  unfold assembled. cbn [outline Nat.add nth_error].
  rewrite (bookmarks_nth _ _ _ _ _ Hr), cover_of_length.
  repeat f_equal. lia.
Qed.

Lemma printed_page_and_bookmark_index_witness :
  nth_error (outline (assembled sample_world "main.py"
                        ["in/a.pdf"; "in/b.pdf"; "in/c.pdf"])) (2 + 2) =
  Some (display_name "c.pdf",
        4 + List.length (toc_of sample_world
                           ["in/a.pdf"; "in/b.pdf"; "in/c.pdf"])).
Proof.
  apply (printed_page_and_bookmark_index sample_world "main.py"
           ["in/a.pdf"; "in/b.pdf"; "in/c.pdf"] sys0); vm_compute; reflexivity.
Defined.

(** * Further properties of [main] *)

Lemma insert_sorted_In_iff (x y : string) (l : list string) :
  In y (insert_sorted x l) <-> y = x \/ In y l.
Proof.
  split; [apply insert_sorted_In|].
  induction l as [|z l IH]; cbn [insert_sorted].
  - intros [->|[]]. now left.
  - destruct (String.leb x z); cbn [In]; intros [->|[->|H]]; auto.
Qed.

Lemma sorted_In_iff (y : string) (l : list string) :
  In y (sorted l) <-> In y l.
Proof.
  induction l as [|x l IH]; cbn [sorted fold_right]; [tauto|].
  fold (sorted l). rewrite insert_sorted_In_iff, IH. cbn [In].
  split; intros [H|H]; auto.
Qed.

Lemma insert_sorted_length (x : string) (l : list string) :
  List.length (insert_sorted x l) = S (List.length l).
Proof.
  induction l as [|z l IH]; cbn [insert_sorted]; [reflexivity|].
  destruct (String.leb x z); cbn [List.length]; [|rewrite IH]; reflexivity.
Qed.

Lemma sorted_length (l : list string) :
  List.length (sorted l) = List.length l.
Proof.
  induction l as [|x l IH]; [reflexivity|]. cbn [sorted fold_right].
  fold (sorted l). now rewrite insert_sorted_length, IH.
Qed.

Lemma existsb_sorted (f : string -> bool) (l : list string) :
  existsb f (sorted l) = existsb f l.
Proof.
  destruct (existsb f l) eqn:E.
  - apply existsb_exists in E. destruct E as (x & Hin & Hx).
    apply existsb_exists. exists x.
    split; [apply (proj2 (sorted_In_iff _ _)); exact Hin | exact Hx].
  - destruct (existsb f (sorted l)) eqn:E'; [|reflexivity].
    apply existsb_exists in E'. destruct E' as (x & Hin & Hx).
    apply (proj1 (sorted_In_iff _ _)) in Hin.
    assert (existsb f l = true)
      by (apply existsb_exists; exists x; split; assumption).
    congruence.
Qed.

Lemma make_cover_pdf_stdout (w : World) (p : string) (s : Sys) :
  stdout (snd (make_cover_pdf w p s)) = (stdout s ++ cover_warnings w p)%list.
Proof.
  pose proof (make_cover_pdf_cases w p s) as H. unfold cover_warnings.
  destruct (cover_image w p); destruct H as [_ ->];
    [now rewrite app_nil_r | reflexivity | now rewrite app_nil_r].
Qed.

(** The run over three arguments, case by case. *)
Lemma run_three_arguments (w : World) (file prog out dir : string) :
  run w file [prog; out; dir] =
  if isdir w dir then
    match found w dir with
    | [] =>
        (1, print ("No PDFs found in " ++ dir)
              (access (AGlob (path_join dir ["*.pdf"]))
                 (access (AIsDir dir) sys0)))
    | _ :: _ =>
        match first_broken w (found w dir) with
        | Some (exc, msg) =>
            (1, eprint (traceback_line exc msg)
                  (catalog_sys w (scanned w (found w dir))
                     (progress_sys w out dir)))
        | None =>
            if existsb (readable w) (glob w (path_join dir ["*.pdf"])) then
              match open_wb_error w out with
              | Some (OpenRaises exc msg) =>
                  (1, eprint (traceback_line exc msg)
                        (cover_sys w file (found w dir)
                           (progress_sys w out dir)))
              | Some (WriteRaises exc msg) =>
                  (1, eprint (traceback_line exc msg)
                        (truncate_file out
                           (cover_sys w file (found w dir)
                              (progress_sys w out dir))))
              | None =>
                  (0, print "Done. Your beautiful PDF is ready!"
                        (write_file out (assembled w file (found w dir))
                           (cover_sys w file (found w dir)
                              (progress_sys w out dir))))
              end
            else
              (1, eprint "RuntimeError: No readable PDFs to merge."
                    (catalog_sys w (found w dir) (progress_sys w out dir)))
        end
    end
  else (1, print ("Error: '" ++ dir ++ "' is not a directory")
             (access (AIsDir dir) sys0)).
Proof.
  unfold run, main, progress_sys. fold (found w dir).
  destruct (isdir w dir); [|reflexivity]. cbn [negb].
  rewrite <- (existsb_sorted (readable w)). fold (found w dir).
  destruct (found w dir) as [|p ps] eqn:E; [reflexivity|].
  rewrite <- E, merge_with_index_spec.
  destruct (first_broken w (found w dir)) as [[exc msg]|]; [reflexivity|].
  destruct (existsb (readable w) (found w dir)) eqn:Ex.
  - pose proof (opened_nonempty w _ Ex) as Hne.
    destruct (opened w (found w dir)); [congruence|].
    destruct (open_wb_error w out) as [[? ?|? ?]|]; reflexivity.
  - rewrite (opened_empty w _ Ex). reflexivity.
Qed.

Lemma catalog_sys_written (w : World) (paths : list string) (s : Sys) :
  written (catalog_sys w paths s) = written s /\
  truncated (catalog_sys w paths s) = truncated s /\
  stderr (catalog_sys w paths s) = stderr s.
Proof. repeat split. Qed.

Lemma cover_sys_truncated (w : World) (file : string) (paths : list string)
    (s : Sys) :
  truncated (cover_sys w file paths s) = truncated s.
Proof.
  unfold cover_sys, make_cover_pdf, draw_cover_image. cbn [letter].
  destruct (path_exists w (cover_path file));
    [destruct (image_open w (cover_path file)) as [iw ih|e];
     [destruct ((iw =? 0)%nat || (ih =? 0)%nat);
      [|destruct (draw_image_error w (cover_path file))]|]|];
    reflexivity.
Qed.

Lemma cover_sys_stderr (w : World) (file : string) (paths : list string)
    (s : Sys) :
  stderr (cover_sys w file paths s) = stderr s.
Proof.
  unfold cover_sys.
  now rewrite (proj1 (proj2 (make_cover_pdf_effects w _ _))).
Qed.

(** X10: the process ends with status 0 or 1.  It ends with 0 exactly when
    it has three arguments, INPUT_DIR is a directory, no file that opens
    fails when its pages are listed, one of the paths the glob returns is
    readable, and the output file is opened and written without an
    exception; it then writes one file, at OUTPUT_PATH, the container
    assembled from the sorted paths.  With status 1 no container is
    written, and the output file is left as it was unless the exception
    came after it was opened for writing: then it is left truncated. *)
Theorem exit_status_and_output (w : World) (file : string)
    (argv : list string) :
  (fst (run w file argv) = 0 \/ fst (run w file argv) = 1) /\
  (fst (run w file argv) = 0 <->
   exists prog out dir,
     argv = [prog; out; dir] /\
     isdir w dir = true /\
     first_broken w (found w dir) = None /\
     existsb (readable w) (glob w (path_join dir ["*.pdf"])) = true /\
     open_wb_error w out = None) /\
  (fst (run w file argv) = 1 ->
   written (snd (run w file argv)) = [] /\
   (truncated (snd (run w file argv)) = [] \/
    exists prog out dir exc msg,
      argv = [prog; out; dir] /\
      open_wb_error w out = Some (WriteRaises exc msg) /\
      truncated (snd (run w file argv)) = [out] /\
      stderr (snd (run w file argv)) = [traceback_line exc msg])) /\
  (fst (run w file argv) = 0 ->
   exists prog out dir,
     argv = [prog; out; dir] /\
     written (snd (run w file argv)) =
       [(out, assembled w file (sorted (glob w (path_join dir ["*.pdf"]))))]
     /\
     truncated (snd (run w file argv)) = [] /\
     stderr (snd (run w file argv)) = []).
Proof.
  destruct argv as [|prog [|out [|dir [|x argv]]]];
    try (split; [now right|]; split;
         [split; [discriminate | intros (? & ? & ? & [=] & _)]|];
         split; [intros _; split; [reflexivity | now left] | discriminate]).
  rewrite run_three_arguments.
  destruct (isdir w dir) eqn:Hdir.
  2:{ split; [now right|].
      split; [|split; [intros _; split; [reflexivity | now left]
                      | discriminate]].
      split; [discriminate|]. intros (? & ? & ? & [= <- <- <-] & H & _).
      congruence. }
  pose proof (existsb_sorted (readable w) (glob w (path_join dir ["*.pdf"])))
    as Hex. fold (found w dir) in Hex.
  destruct (found w dir) as [|p ps] eqn:Hfound.
  { split; [now right|].
    split; [|split; [intros _; split; [reflexivity | now left]
                    | discriminate]].
    split; [discriminate|].
    intros (? & ? & ? & [= <- <- <-] & _ & _ & H & _).
    rewrite <- Hex in H. discriminate. }
  destruct (first_broken w (p :: ps)) as [[exc msg]|] eqn:Hb.
  { split; [now right|].
    split; [|split; [intros _; split; [reflexivity | now left]
                    | discriminate]].
    split; [discriminate|].
    intros (? & ? & ? & [= <- <- <-] & _ & H & _).
    rewrite Hfound in H. congruence. }
  destruct (existsb (readable w) (glob w (path_join dir ["*.pdf"]))) eqn:Hr.
  2:{ split; [now right|].
      split; [|split; [intros _; split; [reflexivity | now left]
                      | discriminate]].
      split; [discriminate|].
      intros (? & ? & ? & [= <- <- <-] & _ & _ & H & _). congruence. }
  destruct (open_wb_error w out) as [[exc msg|exc msg]|] eqn:Hopen.
  - split; [now right|]. split; [|split].
    + split; [discriminate|].
      intros (? & ? & ? & [= <- <- <-] & _ & _ & _ & H). congruence.
    + intros _. cbn [snd eprint written truncated].
      rewrite cover_sys_written, cover_sys_truncated.
      split; [reflexivity | now left].
    + discriminate.
  - split; [now right|]. split; [|split].
    + split; [discriminate|].
      intros (? & ? & ? & [= <- <- <-] & _ & _ & _ & H). congruence.
    + intros _. cbn [snd eprint truncate_file written truncated stderr].
      rewrite cover_sys_written, cover_sys_truncated, cover_sys_stderr.
      split; [reflexivity|]. right. exists prog, out, dir, exc, msg.
      repeat split. exact Hopen.
    + discriminate.
  - split; [now left|]. split; [|split].
    + split; [|reflexivity]. intros _. exists prog, out, dir.
      rewrite Hfound. repeat split; assumption.
    + discriminate.
    + intros _. exists prog, out, dir. split; [reflexivity|].
      cbn [snd print write_file written truncated stderr].
      rewrite cover_sys_written, cover_sys_truncated, cover_sys_stderr.
      fold (found w dir). rewrite Hfound. repeat split.
Qed.

Lemma exit_status_and_output_witness :
  (fst (run sample_world "main.py" ["main.py"; "out.pdf"; "in"]) = 0 /\
   exists prog out dir,
     ["main.py"; "out.pdf"; "in"] = [prog; out; dir] /\
     written (snd (run sample_world "main.py" ["main.py"; "out.pdf"; "in"])) =
       [(out, assembled sample_world "main.py"
                (sorted (glob sample_world (path_join dir ["*.pdf"]))))] /\
     truncated (snd (run sample_world "main.py"
                       ["main.py"; "out.pdf"; "in"])) = [] /\
     stderr (snd (run sample_world "main.py"
                    ["main.py"; "out.pdf"; "in"])) = []) /\
  (fst (run full_disk_world "main.py" ["main.py"; "out.pdf"; "in"]) = 1 /\
   written (snd (run full_disk_world "main.py"
                   ["main.py"; "out.pdf"; "in"])) = []).
Proof.
  pose proof (exit_status_and_output sample_world "main.py"
                ["main.py"; "out.pdf"; "in"]) as (_ & _ & _ & H).
  pose proof (exit_status_and_output full_disk_world "main.py"
                ["main.py"; "out.pdf"; "in"]) as (_ & _ & H1 & _).
  assert (fst (run sample_world "main.py" ["main.py"; "out.pdf"; "in"]) = 0)
    as E by (vm_compute; reflexivity).
  assert (fst (run full_disk_world "main.py" ["main.py"; "out.pdf"; "in"]) = 1)
    as E1 by (vm_compute; reflexivity).
  split; [split; [exact E | exact (H E)]
         |split; [exact E1 | exact (proj1 (H1 E1))]].
Defined.

(** X11: when opening the output file for writing, or writing the
    container to it, raises, the run dies of that exception after the
    documents were read and the cover and the TOC rendered: status 1, the
    class and the message of the exception as the last line on the
    standard error, no container written, and the completion line is not
    printed.  The output file is untouched when [open] raised, and left
    truncated when the exception came after it was opened. *)
Theorem write_failure_is_fatal (w : World) (file prog out dir : string)
    (err : WriteError) :
  isdir w dir = true ->
  first_broken w (found w dir) = None ->
  existsb (readable w) (glob w (path_join dir ["*.pdf"])) = true ->
  open_wb_error w out = Some err ->
  fst (run w file [prog; out; dir]) = 1 /\
  stderr (snd (run w file [prog; out; dir])) =
    [match err with
     | OpenRaises exc msg | WriteRaises exc msg => traceback_line exc msg
     end] /\
  written (snd (run w file [prog; out; dir])) = [] /\
  truncated (snd (run w file [prog; out; dir])) =
    match err with
    | OpenRaises _ _ => []
    | WriteRaises _ _ => [out]
    end /\
  ~ In "Done. Your beautiful PDF is ready!"
       (stdout (snd (run w file [prog; out; dir]))).
Proof.
  intros Hdir Hb Hr Hopen. rewrite run_three_arguments, Hdir, Hb, Hr, Hopen.
  pose proof (existsb_sorted (readable w) (glob w (path_join dir ["*.pdf"])))
    as Hex. fold (found w dir) in Hex. rewrite Hr in Hex.
  destruct (found w dir) as [|p ps] eqn:Hfound; [discriminate|].
  rewrite <- Hfound.
  assert (~ In "Done. Your beautiful PDF is ready!"
            (stdout (cover_sys w file (found w dir) (progress_sys w out dir))))
    as Hdone.
  { unfold cover_sys. rewrite make_cover_pdf_stdout.
    cbn [catalog_sys progress_sys stdout print access sys0 app].
    intros [H|[H|H]]; try discriminate H.
    apply in_app_or in H. destruct H as [H|H].
    - apply skip_warnings_shape in H. destruct H as (q & c & H).
      discriminate H.
    - unfold cover_warnings in H.
      destruct (cover_image w (cover_path file)); cbn [In] in H;
        try contradiction.
      destruct H as [H|[]]. discriminate H. }
  destruct err as [exc msg|exc msg];
    cbn [fst snd eprint truncate_file stderr written truncated stdout];
    rewrite cover_sys_written, cover_sys_truncated, cover_sys_stderr;
    (split; [reflexivity|]; split; [reflexivity|]; split; [reflexivity|];
     split; [reflexivity | exact Hdone]).
Qed.

Lemma write_failure_is_fatal_witness :
  (fst (run readonly_world "main.py" ["main.py"; "out.pdf"; "in"]) = 1 /\
   stderr (snd (run readonly_world "main.py" ["main.py"; "out.pdf"; "in"])) =
     ["PermissionError: [Errno 13] Permission denied: 'out.pdf'"] /\
   written (snd (run readonly_world "main.py" ["main.py"; "out.pdf"; "in"]))
     = [] /\
   truncated (snd (run readonly_world "main.py" ["main.py"; "out.pdf"; "in"]))
     = [] /\
   ~ In "Done. Your beautiful PDF is ready!"
        (stdout (snd (run readonly_world "main.py"
                        ["main.py"; "out.pdf"; "in"])))) /\
  (fst (run full_disk_world "main.py" ["main.py"; "out.pdf"; "in"]) = 1 /\
   stderr (snd (run full_disk_world "main.py" ["main.py"; "out.pdf"; "in"])) =
     ["OSError: [Errno 28] No space left on device"] /\
   written (snd (run full_disk_world "main.py" ["main.py"; "out.pdf"; "in"]))
     = [] /\
   truncated (snd (run full_disk_world "main.py"
                     ["main.py"; "out.pdf"; "in"])) = ["out.pdf"] /\
   ~ In "Done. Your beautiful PDF is ready!"
        (stdout (snd (run full_disk_world "main.py"
                        ["main.py"; "out.pdf"; "in"])))).
Proof.
  split.
  - apply (write_failure_is_fatal readonly_world "main.py" "main.py" "out.pdf"
             "in" (OpenRaises "PermissionError"
                     "[Errno 13] Permission denied: 'out.pdf'"));
      reflexivity.
  - apply (write_failure_is_fatal full_disk_world "main.py" "main.py"
             "out.pdf" "in"
             (WriteRaises "OSError" "[Errno 28] No space left on device"));
      reflexivity.
Defined.

(** X12: a run that succeeds prints, in this order: the line "Merging N
    PDFs ..." where N counts the paths the glob returned, those that do not
    open included; the line "Adding cover page ..."; one warning per path
    that does not open, in sorted order; the warning of the cover renderer
    if the cover image is unusable; and the completion line. *)
Theorem successful_run_prints (w : World) (file prog out dir : string) :
  isdir w dir = true ->
  first_broken w (found w dir) = None ->
  existsb (readable w) (glob w (path_join dir ["*.pdf"])) = true ->
  open_wb_error w out = None ->
  stdout (snd (run w file [prog; out; dir])) =
  ([ ("Merging "
        ++ str_of_nat (List.length (glob w (path_join dir ["*.pdf"])))
        ++ " PDFs from '" ++ dir ++ "' " ++ arrow ++ " '" ++ out ++ "'")%string;
     "Adding cover page and beautiful Table of Contents..." ]
   ++ skip_warnings w (sorted (glob w (path_join dir ["*.pdf"])))
   ++ cover_warnings w (cover_path file)
   ++ [ "Done. Your beautiful PDF is ready!" ])%list.
Proof.
  intros Hdir Hb Hr Hopen. rewrite run_three_arguments, Hdir, Hb, Hr, Hopen.
  pose proof (existsb_sorted (readable w) (glob w (path_join dir ["*.pdf"])))
    as Hex. fold (found w dir) in *. rewrite Hr in Hex.
  destruct (found w dir) as [|p ps] eqn:Hfound; [discriminate|].
  rewrite <- Hfound. cbn [snd print write_file stdout].
  unfold cover_sys. rewrite make_cover_pdf_stdout.
  cbn [catalog_sys progress_sys stdout print access sys0].
  unfold found at 1. rewrite sorted_length. cbn [app].
  now rewrite <- !app_assoc.
Qed.

Lemma successful_run_prints_witness :
  stdout (snd (run sample_world "main.py" ["main.py"; "out.pdf"; "in"])) =
  ([ ("Merging "
        ++ str_of_nat (List.length (glob sample_world
                                      (path_join "in" ["*.pdf"])))
        ++ " PDFs from '" ++ "in" ++ "' " ++ arrow
        ++ " '" ++ "out.pdf" ++ "'")%string;
     "Adding cover page and beautiful Table of Contents..." ]
   ++ skip_warnings sample_world
        (sorted (glob sample_world (path_join "in" ["*.pdf"])))
   ++ cover_warnings sample_world (cover_path "main.py")
   ++ [ "Done. Your beautiful PDF is ready!" ])%list.
Proof.
  apply (successful_run_prints sample_world "main.py" "main.py" "out.pdf" "in");
    reflexivity.
Defined.

Lemma skip_warnings_all (w : World) (paths : list string) :
  existsb (opens w) paths = false ->
  List.length (skip_warnings w paths) = List.length paths.
Proof.
  induction paths as [|p paths IH]; [reflexivity|].
  cbn [existsb]. unfold opens at 1, skip_warnings. cbn [flat_map].
  destruct (pdf_reader w p); try discriminate. intros H.
  cbn [app List.length]. f_equal. now apply IH.
Qed.

Lemma existsb_opens_false (w : World) (paths : list string) :
  existsb (opens w) paths = false ->
  first_broken w paths = None /\ existsb (readable w) paths = false.
Proof.
  intros H.
  assert (forall p, In p paths -> opens w p = false) as Hall.
  { intros p Hp. destruct (opens w p) eqn:E; [|reflexivity].
    assert (existsb (opens w) paths = true)
      by (apply existsb_exists; now exists p).
    congruence. }
  split; [now apply first_broken_none_of_not_opens|].
  destruct (existsb (readable w) paths) eqn:E; [|reflexivity].
  apply existsb_exists in E. destruct E as (p & Hp & Hr).
  rewrite (not_opens_not_readable w p (Hall p Hp)) in Hr. discriminate.
Qed.

(** X13: when none of the paths opens, [merge_with_index] raises
    RuntimeError after it has tried every path once, in order, and printed
    one warning for each; it never looks for the cover image, renders
    nothing and writes nothing. *)
Theorem nothing_readable_stops_before_rendering (w : World)
    (file out : string) (paths : list string) (s : Sys) :
  existsb (opens w) paths = false ->
  fst (merge_with_index w file out paths s) =
    Raised "RuntimeError" "No readable PDFs to merge." /\
  accesses (snd (merge_with_index w file out paths s)) =
    (accesses s ++ map APdfReader paths)%list /\
  stdout (snd (merge_with_index w file out paths s)) =
    (stdout s ++ skip_warnings w paths)%list /\
  List.length (skip_warnings w paths) = List.length paths /\
  written (snd (merge_with_index w file out paths s)) = written s.
Proof.
  intros H. destruct (existsb_opens_false w paths H) as [Hb Hr].
  rewrite merge_with_index_spec, Hb, (opened_empty w paths Hr).
  repeat split. now apply skip_warnings_all.
Qed.

Lemma nothing_readable_stops_before_rendering_witness :
  fst (merge_with_index broken_world "main.py" "out.pdf" ["in/x.pdf"] sys0) =
    Raised "RuntimeError" "No readable PDFs to merge." /\
  accesses (snd (merge_with_index broken_world "main.py" "out.pdf"
                   ["in/x.pdf"] sys0)) = [APdfReader "in/x.pdf"].
Proof.
  pose proof (nothing_readable_stops_before_rendering broken_world "main.py"
                "out.pdf" ["in/x.pdf"] sys0 eq_refl) as (H1 & H2 & _).
  split; [exact H1 | exact H2].
Defined.

(** ** The order of the documents *)

Lemma string_compare_trans (a : string) :
  forall b c,
    String.compare a b <> Gt -> String.compare b c <> Gt ->
    String.compare a c <> Gt.
Proof.
  induction a as [|x a IH]; intros [|y b] [|z c]; cbn [String.compare];
    try congruence.
  unfold Ascii.compare.
  destruct (N.compare_spec (N_of_ascii x) (N_of_ascii y));
    destruct (N.compare_spec (N_of_ascii y) (N_of_ascii z));
    destruct (N.compare_spec (N_of_ascii x) (N_of_ascii z));
    try congruence; try lia.
  apply IH.
Qed.

Lemma string_le_trans (a b c : string) :
  string_le a b -> string_le b c -> string_le a c.
Proof.
  unfold string_le, String.leb. intros Hab Hbc.
  pose proof (string_compare_trans a b c) as H.
  destruct (String.compare a b); destruct (String.compare b c);
    destruct (String.compare a c); try reflexivity; try discriminate;
    exfalso; apply H; congruence.
Qed.

Lemma insert_sorted_perm (x : string) (l : list string) :
  Permutation (x :: l) (insert_sorted x l).
Proof.
  induction l as [|y l IH]; cbn [insert_sorted]; [reflexivity|].
  destruct (String.leb x y); [reflexivity|].
  rewrite perm_swap. now apply perm_skip.
Qed.

Lemma sorted_perm (l : list string) : Permutation l (sorted l).
Proof.
  induction l as [|x l IH]; [reflexivity|]. cbn [sorted fold_right].
  fold (sorted l). rewrite <- insert_sorted_perm. now apply perm_skip.
Qed.

Lemma insert_sorted_sorted (x : string) (l : list string) :
  StronglySorted string_le l -> StronglySorted string_le (insert_sorted x l).
Proof.
  induction 1 as [|y l Hl IH Hy]; cbn [insert_sorted].
  - repeat constructor.
  - destruct (String.leb x y) eqn:E.
    + constructor; [now constructor|]. constructor; [exact E|].
      eapply Forall_impl; [|exact Hy]. intros z Hz.
      now apply (string_le_trans x y z).
    + constructor; [exact IH|].
      assert (string_le y x) as Hyx
        by (destruct (String.leb_total x y); [congruence | assumption]).
      apply Forall_forall. intros z Hz.
      apply insert_sorted_In in Hz. destruct Hz as [->|Hz]; [exact Hyx|].
      now apply (proj1 (Forall_forall _ _) Hy).
Qed.

Lemma sorted_sorted (l : list string) : StronglySorted string_le (sorted l).
Proof.
  induction l as [|x l IH]; [constructor|]. cbn [sorted fold_right].
  now apply insert_sorted_sorted.
Qed.

(** Two sorted lists with the same elements are the same list. *)
Lemma sorted_unique (l1 : list string) :
  forall l2,
    StronglySorted string_le l1 -> StronglySorted string_le l2 ->
    Permutation l1 l2 -> l1 = l2.
Proof.
  induction l1 as [|x l1 IH]; intros l2 H1 H2 Hp.
  - apply Permutation_nil in Hp. now subst.
  - destruct l2 as [|y l2];
      [apply Permutation_sym, Permutation_nil in Hp; discriminate|].
    inversion H1 as [|? ? H1' Hx]; subst.
    inversion H2 as [|? ? H2' Hy]; subst.
    assert (x = y) as ->.
    { assert (In x (y :: l2)) as Hxin
        by (apply (Permutation_in _ Hp); now left).
      assert (In y (x :: l1)) as Hyin
        by (apply (Permutation_in _ (Permutation_sym Hp)); now left).
      destruct Hxin as [->|Hxin]; [reflexivity|].
      destruct Hyin as [->|Hyin]; [reflexivity|].
      apply String.leb_antisym.
      - exact (proj1 (Forall_forall _ _) Hx y Hyin).
      - exact (proj1 (Forall_forall _ _) Hy x Hxin). }
    f_equal. apply IH; try assumption.
    now apply Permutation_cons_inv in Hp.
Qed.

Lemma sorted_of_permutation (l1 l2 : list string) :
  Permutation l1 l2 -> sorted l1 = sorted l2.
Proof.
  intros Hp. apply sorted_unique; try apply sorted_sorted.
  rewrite <- (sorted_perm l1), <- (sorted_perm l2). exact Hp.
Qed.

Lemma toc_entries_same_widths (w1 w2 : World) (es : list (string * nat)) :
  stringWidth w1 = stringWidth w2 ->
  forall idx st, toc_entries w1 idx es st = toc_entries w2 idx es st.
Proof.
  intros Hw. induction es as [|[name sp] es IH]; intros idx st;
    cbn [toc_entries]; [reflexivity|].
  rewrite IH. f_equal. unfold toc_entry, toc_draw_row. now rewrite Hw.
Qed.

Lemma first_broken_with_glob (g : string -> list string) (w : World)
    (paths : list string) :
  first_broken (with_glob g w) paths = first_broken w paths /\
  scanned (with_glob g w) paths = scanned w paths.
Proof.
  induction paths as [|p paths [IH1 IH2]]; [split; reflexivity|].
  cbn [first_broken scanned]. rewrite IH1, IH2. split; reflexivity.
Qed.

Lemma merge_with_index_with_glob (g : string -> list string) (w : World)
    (file out : string) (paths : list string) (s : Sys) :
  merge_with_index (with_glob g w) file out paths s =
  merge_with_index w file out paths s.
Proof.
  rewrite !merge_with_index_spec.
  destruct (first_broken_with_glob g w paths) as [-> ->].
  assert (assembled (with_glob g w) file paths = assembled w file paths)
    as ->.
  { unfold assembled, toc_of, make_toc_pdf.
    now rewrite (toc_entries_same_widths (with_glob g w) w) by reflexivity. }
  reflexivity.
Qed.

(** X14: the documents are merged in the lexicographic order of their
    paths, and the run does not depend on the order in which the glob lists
    the directory: two listings with the same paths give the same run. *)
Theorem listing_order_is_irrelevant (w : World) (g : string -> list string)
    (file : string) (argv : list string) :
  (forall pattern, Permutation (g pattern) (glob w pattern)) ->
  run (with_glob g w) file argv = run w file argv /\
  forall dir, StronglySorted string_le (found w dir).
Proof.
  intros Hp. split; [|intros dir; apply sorted_sorted].
  unfold run, main.
  destruct argv as [|prog [|out [|dir [|x argv]]]]; try reflexivity.
  cbn [isdir glob with_glob].
  rewrite (sorted_of_permutation _ _ (Hp (path_join dir ["*.pdf"]))).
  destruct (isdir w dir); cbn [negb]; [|reflexivity].
  destruct (sorted (glob w (path_join dir ["*.pdf"]))) as [|p ps];
    [reflexivity|].
  now rewrite merge_with_index_with_glob.
Qed.

Lemma listing_order_is_irrelevant_witness :
  run (with_glob (fun pattern => rev (glob sample_world pattern))
                 sample_world) "main.py" ["main.py"; "out.pdf"; "in"] =
  run sample_world "main.py" ["main.py"; "out.pdf"; "in"].
Proof.
  apply (listing_order_is_irrelevant sample_world
           (fun pattern => rev (glob sample_world pattern))).
  intros pattern. apply Permutation_sym, Permutation_rev.
Defined.

(** * Further properties of the display name *)

Lemma map_chars_no_underscore (s : string) :
  occurs "_" (map_chars underscore_to_space s) = false.
Proof.
  induction s as [|c s IH]; [reflexivity|].
  cbn [map_chars]. rewrite occurs_cons, IH, orb_false_r.
  cbn [prefix]. unfold underscore_to_space.
  destruct (Ascii.eqb c "_") eqn:E.
  - destruct (ascii_dec "_" " "); [discriminate | reflexivity].
  - destruct (ascii_dec "_" c) as [<-|]; [discriminate E | reflexivity].
Qed.

(** X15: a display name holds no underscore and is never longer than the
    name it comes from. *)
Theorem display_name_has_no_underscore (name : string) :
  occurs "_" (display_name name) = false /\
  String.length (display_name name) <= String.length name.
Proof.
  unfold display_name. split.
  - rewrite replace_underscore_map. apply map_chars_no_underscore.
  - rewrite replace_underscore_length. apply remove_from_length_le.
Qed.

(** X16: for a name that ends in [".pdf"] and holds no other occurrence
    of it, the display name is the name without the extension, with a
    space for every underscore and every other character kept. *)
Theorem display_name_of_plain_name (stem : string) :
  occurs ".pdf" (stem ++ ".pd") = false ->
  display_name (stem ++ ".pdf") = map_chars underscore_to_space stem.
Proof.
  intros H. unfold display_name.
  now rewrite remove_pdf_app, replace_underscore_map.
Qed.

Lemma display_name_of_plain_name_witness :
  display_name ("Autumn_Leaves" ++ ".pdf") = "Autumn Leaves".
Proof.
  apply (display_name_of_plain_name "Autumn_Leaves"). reflexivity.
Defined.

(** * The size of the output *)

(** X17: the number of pages of the container is 2, plus one for every 26
    files that open, plus the pages of those files: one cover page, the TOC
    pages and the source pages. *)
Theorem output_page_count_formula (w : World) (file : string)
    (paths : list string) (s : Sys) (wr : PdfWriter) :
  fst (build_document w file paths s) = Returned wr ->
  List.length (pages wr) =
  2 + List.length (filter (readable w) paths) / 26
  + list_sum (map (page_count w) paths).
Proof.
  intros H. apply returned_is_assembled in H. subst wr.
  unfold assembled. cbn [pages].
  rewrite !length_app, cover_of_length, concat_length_sum, map_map.
  fold (total_pages (opened w paths)). rewrite opened_total_pages.
  unfold toc_of. rewrite make_toc_pdf_length.
  rewrite <- (length_map fst (start_pages 0 (opened w paths))).
  rewrite start_pages_names, length_map, opened_length. lia.
Qed.

Lemma output_page_count_formula_witness :
  List.length (pages (assembled sample_world "main.py"
                        ["in/a.pdf"; "in/bad.pdf"; "in/b.pdf"; "in/c.pdf"])) =
  2 + List.length (filter (readable sample_world)
                     ["in/a.pdf"; "in/bad.pdf"; "in/b.pdf"; "in/c.pdf"]) / 26
  + list_sum (map (page_count sample_world)
                  ["in/a.pdf"; "in/bad.pdf"; "in/b.pdf"; "in/c.pdf"]).
Proof.
  apply (output_page_count_formula sample_world "main.py"
           ["in/a.pdf"; "in/bad.pdf"; "in/b.pdf"; "in/c.pdf"] sys0).
  vm_compute. reflexivity.
Defined.
